(** * EduGap analysis notebook: label construction and group aggregation

    A shallow embedding of the data cells of [EduGap_Analysis_Notebook.ipynb]
    (encoding, gain columns, median and quantile labelling, and the two
    reporting functions [averages_calculate] and [bar_graph]).

    Conventions of the embedding:
    - a numeric cell is an exact rational ([Q]); the rounding of binary
      floating point is not modelled, so a pandas float is read as the
      rational it denotes;
    - a [DataFrame] is a finite map from column names to columns, and a
      notebook cell is a function from the frame before it to the frame
      after it (or to the exception it raises);
    - a missing value (NaN) of a categorical or integer-coded column is
      [None];
    - [Series.sort_values] is a parameter of [bar_graph]: pandas fixes the
      order of its result only up to rows with equal values. *)

From Stdlib Require Import QArith Qabs Qround Lqa.
From stdpp Require Import gmap strings list sorting.

Local Open Scope Q_scope.

(** * The notebook *)

(** ** Exceptions and the result monad *)

(** The exceptions of the pandas and NumPy calls the notebook makes.
    [LengthMismatch] is the [ValueError] of an assignment to [columns].
    [UnknownCategory] is the error the specification names for the encoder;
    no cell raises it. *)
Inductive error : Type :=
  | KeyError (column : string)
  | IndexError
  | ValueError
  | LengthMismatch (expected : nat) (given : nat)
  | UnknownCategory (value : string).

Inductive result (A : Type) : Type :=
  | Ok (a : A)
  | Err (e : error).
Arguments Ok {A} a.
Arguments Err {A} e.

Global Instance result_bind : MBind result := λ A B k r,
  match r with
  | Ok a => k a
  | Err e => Err e
  end.
Global Instance result_ret : MRet result := λ A a, Ok a.

(** [Series.apply(f)]: the function is called on each row in turn; the first
    exception aborts the pass. On an empty column [f] is never called. *)
Fixpoint apply {A B} (f : A → result B) (s : list A) : result (list B) :=
  match s with
  | [] => Ok []
  | x :: s' => y ← f x; ys ← apply f s'; Ok (y :: ys)
  end.

(** ** Frames of numeric columns *)

Abbreviation DataFrame := (gmap string (list Q)).

(** [data[c]]: a missing column raises [KeyError]. *)
Definition getitem {A} (data : gmap string (list A)) (c : string)
  : result (list A) :=
  match data !! c with
  | Some s => Ok s
  | None => Err (KeyError c)
  end.

(** [data[c] = s] *)
Definition setitem (data : DataFrame) (c : string) (s : list Q) : DataFrame :=
  <[c := s]> data.

(** All columns of a frame have the same number of rows. *)
Definition frame_rows (data : DataFrame) (n : nat) : Prop :=
  map_Forall (λ _ s, length s = n) data.

(** Element-wise [a - b] of two columns of one frame. *)
Definition series_sub (a b : list Q) : list Q := zip_with Qminus a b.

(** ** Encoding of the categorical columns (cell "Transform Categorical Data
    to Numerical Format") *)

Abbreviation RawFrame := (gmap string (list string)).
Abbreviation CodedFrame := (gmap string (list (option Z))).

Definition gender_codes : gmap string Z := {[ "M" := 0; "F" := 1 ]}%Z.

Definition education_codes : gmap string Z :=
  {[ "none" := 0; "high school" := 1; "some college" := 2;
     "associate" := 3; "bachelor" := 4; "master" := 5 ]}%Z.

Definition employment_codes : gmap string Z :=
  {[ "unemployed" := 0; "part-time" := 1; "full-time" := 2 ]}%Z.

(** [s.map(codes)] with a dict: a value that is not a key becomes NaN. *)
Definition Series_map (codes : gmap string Z) (s : list string)
  : list (option Z) :=
  (λ v, codes !! v) <$> s.

(** The cell replaces the three categorical columns of the frame; [raw]
    holds them before the cell and the result holds them after it. *)
Definition encode_cell (raw : RawFrame) : result CodedFrame :=
  s ← getitem raw "gender";
  let coded : CodedFrame := <["gender" := Series_map gender_codes s]> ∅ in
  s ← getitem raw "education";
  let coded := <["education" := Series_map education_codes s]> coded in
  s ← getitem raw "employment";
  let coded := <["employment" := Series_map employment_codes s]> coded in
  Ok coded.

(** ** Gain columns (cell "Creating columns") *)

Definition gain_cell (data : DataFrame) : result DataFrame :=
  post ← getitem data "Post_Training_Basic_Computer_Knowledge_Score";
  pre ← getitem data "Basic_Computer_Knowledge_Score";
  let data := setitem data "Computer_Gain" (series_sub post pre) in
  post ← getitem data "Post_Training_Internet_Usage_Score";
  pre ← getitem data "Internet_Usage_Score";
  let data := setitem data "Internet_Gain" (series_sub post pre) in
  post ← getitem data "Post_Training_Mobile_Literacy_Score";
  pre ← getitem data "Mobile_Literacy_Score";
  let data := setitem data "Mobile_Gain" (series_sub post pre) in
  Ok data.

(** ** Labels from fixed cut-offs (cell "Labeling for identifying underserved
    groups") *)

(** The body of [lambda x: 0 if x <= t else 1]. *)
Definition le_label (x t : Q) : Q := if Qle_bool x t then 0 else 1.

Definition median_label_cell (data : DataFrame) : result DataFrame :=
  (* Categorize and Labels (Access) *)
  s ← getitem data "Basic_Computer_Knowledge_Score";
  l ← apply (λ x, Ok (le_label x 25)) s;
  let data := setitem data "Computer_Skill_Label" l in
  s ← getitem data "Internet_Usage_Score";
  l ← apply (λ x, Ok (le_label x 25)) s;
  let data := setitem data "Internet_Usage_Label" l in
  s ← getitem data "Mobile_Literacy_Score";
  l ← apply (λ x, Ok (le_label x 26)) s;
  let data := setitem data "Mobile_Literacy_Label" l in
  (* Categorize and Labels (Skills) *)
  s ← getitem data "Basic_Computer_Knowledge_Score";
  l ← apply (λ x, Ok (le_label x 25)) s;
  let data := setitem data "Computer_Gain_Label" l in
  s ← getitem data "Internet_Usage_Score";
  l ← apply (λ x, Ok (le_label x 25)) s;
  let data := setitem data "Internet_Gain_Label" l in
  s ← getitem data "Mobile_Literacy_Score";
  l ← apply (λ x, Ok (le_label x 26)) s;
  let data := setitem data "Mobile_Gain_Label" l in
  Ok data.

(** ** Quantiles *)

Global Instance Qle_dec : RelDecision Qle := λ x y,
  decide (Qnum x * QDen y ≤ Qnum y * QDen x)%Z.

(** The "linear" method shared by [Series.quantile] and [np.quantile]: on the
    sorted values [a] of length [n], the virtual index is [(n-1)*q]; the
    result interpolates between the entries at its floor and at the next
    index (clipped to [n-1]). [None] on an empty column. *)
Definition percentile_linear (s : list Q) (q : Q) : option Q :=
  let a := merge_sort Qle s in
  let h := inject_Z (Z.of_nat (length a - 1)) * q in
  let i := Z.to_nat (Qfloor h) in
  let g := h - inject_Z (Qfloor h) in
  lo ← a !! i;
  hi ← a !! (Nat.min (i + 1) (length a - 1));
  Some (lo + (hi - lo) * g).

Definition valid_q (q : Q) : bool := Qle_bool 0 q && Qle_bool q 1.

(** [s.quantile(q)]: NaN ([None]) on an empty column. *)
Definition Series_quantile (s : list Q) (q : Q) : result (option Q) :=
  if valid_q q then Ok (percentile_linear s q) else Err ValueError.

(** [np.quantile(s, q)]: an empty array has no entry to index. *)
Definition np_quantile (s : list Q) (q : Q) : result Q :=
  if valid_q q then
    match percentile_linear s q with
    | Some t => Ok t
    | None => Err IndexError
    end
  else Err ValueError.

(** [x <= t] where [t] may be NaN: a comparison with NaN is false. *)
Definition le_label_nan (x : Q) (t : option Q) : Q :=
  match t with
  | Some t => le_label x t
  | None => 1
  end.

(** ** Labels from quantiles (cell "Labeling for model performance
    improvements") *)

(** [data[col].apply(lambda x: 0 if x <= data[src].quantile(q) else 1)]: the
    lambda reads [data] and recomputes the quantile at every row. *)
Definition access_labels (data : DataFrame) (col src : string) (q : Q)
  : result (list Q) :=
  s ← getitem data col;
  apply (λ x, c ← getitem data src; t ← Series_quantile c q;
              Ok (le_label_nan x t)) s.

(** [data[col].apply(lambda x: 0 if x <= np.quantile(data[src], q) else 1)] *)
Definition gain_labels (data : DataFrame) (col src : string) (q : Q)
  : result (list Q) :=
  s ← getitem data col;
  apply (λ x, c ← getitem data src; t ← np_quantile c q;
              Ok (le_label x t)) s.

Definition quantile_label_cell (data : DataFrame) : result DataFrame :=
  (* Categorize and Labels (Access) *)
  l ← access_labels data "Basic_Computer_Knowledge_Score"
        "Basic_Computer_Knowledge_Score" 0.63;
  let data := setitem data "Computer_Skill_Label" l in
  l ← access_labels data "Internet_Usage_Score" "Internet_Usage_Score" 0.56;
  let data := setitem data "Internet_Usage_Label" l in
  l ← access_labels data "Mobile_Literacy_Score" "Mobile_Literacy_Score" 0.69;
  let data := setitem data "Mobile_Literacy_Label" l in
  (* Categorize and Labels (Skills) *)
  l ← gain_labels data "Basic_Computer_Knowledge_Score" "Computer_Gain" 0.56;
  let data := setitem data "Computer_Gain_Label" l in
  l ← gain_labels data "Internet_Usage_Score" "Internet_Gain" 0.55;
  let data := setitem data "Internet_Gain_Label" l in
  l ← gain_labels data "Mobile_Literacy_Score" "Mobile_Gain" 0.6;
  let data := setitem data "Mobile_Gain_Label" l in
  Ok data.

(** ** Group proportions (cell "Plotting and Calculating")

    The reporting functions read integer-coded columns: the demographic
    codes written by the encoder (possibly NaN) and the 0/1 labels. *)

(** The rows that [df.groupby(g)[l].value_counts()] counts: [groupby] drops
    the rows whose group value is NaN and [value_counts] those whose label
    is NaN. Each kept row is its (group value, label) pair. *)
Definition kept_rows (keys labels : list (option Z)) : list (Z * Z) :=
  omap (λ r : option Z * option Z, k ← r.1; v ← r.2; Some (k, v))
    (zip keys labels).

(** The distinct values of a column in ascending order, as the index of a
    [groupby] result and the columns of an [unstack] result list them. *)
Definition sorted_values (l : list Z) : list Z :=
  merge_sort Z.le (remove_dups l).

Definition group_size (rows : list (Z * Z)) (k : Z) : nat :=
  length (filter (λ r : Z * Z, r.1 = k) rows).

Definition pair_count (rows : list (Z * Z)) (k v : Z) : nat :=
  length (filter (λ r : Z * Z, r = (k, v)) rows).

Definition ratio (c n : nat) : Q :=
  inject_Z (Z.of_nat c) / inject_Z (Z.of_nat n).

(** A frame with a row index and value columns. *)
Record table (A : Type) : Type := Table {
  t_columns : list Z;
  t_rows : list (Z * list A)
}.
Arguments Table {A} _ _.
Arguments t_columns {A} _.
Arguments t_rows {A} _.

(** [value_counts(normalize=True)] has an entry for each (group, label) pair
    that occurs, holding its share within the group; [unstack()] spreads the
    labels over columns and leaves NaN where a pair does not occur. *)
Definition proportion_cell (rows : list (Z * Z)) (k v : Z) : option Q :=
  if decide (pair_count rows k v = 0%nat) then None
  else Some (ratio (pair_count rows k v) (group_size rows k)).

Definition value_counts_unstack (rows : list (Z * Z)) : table (option Q) :=
  let columns := sorted_values (rows.*2) in
  Table columns
    ((λ k, (k, proportion_cell rows k <$> columns))
       <$> sorted_values (rows.*1)).

Definition fillna (d : Q) (t : table (option Q)) : table Q :=
  Table (t_columns t)
    ((λ r : Z * list (option Q), (r.1, default d <$> r.2)) <$> t_rows t).

Global Instance Q_inhabited : Inhabited Q := populate 0.

(** A frame with the two columns 'Below Average' and 'Above Average': each
    group value with its pair of proportions. *)
Abbreviation Grouped := (list (Z * (Q * Q))).

(** [grouped.columns = ['Below Average', 'Above Average']]: the assignment
    raises unless the frame has exactly two columns. *)
Definition set_two_columns (t : table Q) : result Grouped :=
  if decide (length (t_columns t) = 2%nat) then
    Ok ((λ r : Z * list Q, (r.1, (r.2 !!! 0%nat, r.2 !!! 1%nat)))
          <$> t_rows t)
  else Err (LengthMismatch (length (t_columns t)) 2).

(** [df.groupby(group_col)[label_col].value_counts(normalize=True)
       .unstack().fillna(0)] followed by the renaming of the columns. *)
Definition grouped_proportions (df : CodedFrame) (group_col label_col : string)
  : result Grouped :=
  keys ← getitem df group_col;
  labels ← getitem df label_col;
  set_two_columns (fillna 0 (value_counts_unstack (kept_rows keys labels))).

(** [averages_calculate] builds the grouped frame and prints it; the printed
    frame is the result here. [bar_graph] builds the same frame for each of
    its group columns. *)
Definition averages_calculate (df : CodedFrame) (group_col label_col : string)
  : result Grouped :=
  grouped_proportions df group_col label_col.

(** [grouped['Below Average']] *)
Definition below_average (grouped : Grouped) : list (Z * Q) :=
  (λ r : Z * (Q * Q), (r.1, r.2.1)) <$> grouped.

(** [s.head(n)]: the first [n] rows, or all but the last [-n] rows when [n]
    is negative. *)
Definition Series_head {A} (n : Z) (s : list A) : list A :=
  if decide (0 ≤ n)%Z then take (Z.to_nat n) s
  else take (length s - Z.to_nat (- n)) s.

(** [bar_graph] up to the plotting calls: the result is the pair of lists
    handed to [plt.bar]. A bar label [f"{group}: {idx}"] is kept as the pair
    of its two parts. [sort_values] stands for
    [Series.sort_values(ascending=False)], whose order among equal values
    depends on the sorting algorithm and is left open. *)
Fixpoint bar_graph_loop (sort_values : list (Z * Q) → list (Z * Q))
    (df : CodedFrame) (label_col : string) (top_n : Z)
    (group_cols : list string)
    (worst_groups : list (string * Z)) (proportions : list Q)
  : result (list (string * Z) * list Q) :=
  match group_cols with
  | [] => Ok (worst_groups, proportions)
  | group :: group_cols =>
      grouped ← grouped_proportions df group label_col;
      let top_worst := Series_head top_n (sort_values (below_average grouped)) in
      bar_graph_loop sort_values df label_col top_n group_cols
        (worst_groups ++ ((λ r : Z * Q, (group, r.1)) <$> top_worst))
        (proportions ++ top_worst.*2)
  end.

Definition bar_graph (sort_values : list (Z * Q) → list (Z * Q))
    (df : CodedFrame) (group_cols : list string) (label_col : string)
    (top_n : Z) : result (list (string * Z) * list Q) :=
  bar_graph_loop sort_values df label_col top_n group_cols [] [].

(** [df.iloc[p]]: the rows of [df] taken in the order [p]. *)
Definition reorder (p : list nat) (df : CodedFrame) : CodedFrame :=
  (λ s : list (option Z), omap (λ i, s !! i) p) <$> df.

(** What the code relies on from [sort_values(ascending=False)]: the same
    rows, in descending order of their values. *)
Definition descending : relation (Z * Q) := λ a b, b.2 <= a.2.

Definition sorts_descending (sort_values : list (Z * Q) → list (Z * Q))
  : Prop :=
  ∀ s, sort_values s ≡ₚ s ∧ Sorted descending (sort_values s).

(** One such sort: insertion from the right, which keeps rows with equal
    values in their order. *)
Fixpoint insert_desc (x : Z * Q) (s : list (Z * Q)) : list (Z * Q) :=
  match s with
  | [] => [x]
  | y :: s' =>
      if Qle_bool y.2 x.2 then x :: y :: s' else y :: insert_desc x s'
  end.

Definition stable_sort_desc (s : list (Z * Q)) : list (Z * Q) :=
  foldr insert_desc [] s.

(** [column_of r c]: column [c] of the frame a cell returned. *)
Definition column_of (r : result DataFrame) (c : string) : option (list Q) :=
  match r with
  | Ok data => data !! c
  | Err _ => None
  end.

(** ** Cleaning (cell "Preprocess and Clean the Data") *)

(** The frame [pd.read_csv] returns: [nrows] rows, text columns and numeric
    columns, whose cells may be missing (NaN). *)
Record RawTable : Type := {
  nrows : nat;
  text : gmap string (list (option string));
  numbers : gmap string (list (option Q))
}.

(** Every column has [nrows] cells. *)
Definition table_rows (t : RawTable) : Prop :=
  map_Forall (λ _ s, length s = nrows t) (text t) ∧
  map_Forall (λ _ s, length s = nrows t) (numbers t).

(** The frame after [dropna]: no cell is missing. *)
Record Cleaned : Type := {
  cat : RawFrame;
  num : DataFrame
}.

(** Row [i] has a value in every column. *)
Definition notna_row (t : RawTable) (i : nat) : Prop :=
  map_Forall (λ _ s, is_Some (mjoin (s !! i))) (text t) ∧
  map_Forall (λ _ s, is_Some (mjoin (s !! i))) (numbers t).

Global Instance notna_row_dec (t : RawTable) (i : nat) : Decision (notna_row t i).
Proof. unfold notna_row. apply _. Defined.

(** The cells of a column at the rows [rows]. *)
Definition take_rows {A} (rows : list nat) (s : list (option A)) : list A :=
  omap (λ i, mjoin (s !! i)) rows.

(** [data.dropna(inplace=True)]: the rows with a missing cell are removed
    from every column. *)
Definition dropna (t : RawTable) : Cleaned :=
  let rows := filter (notna_row t) (seq 0 (nrows t)) in
  {| cat := take_rows rows <$> text t; num := take_rows rows <$> numbers t |}.

(** [s[mask]]: the rows of a column at which the boolean mask is true. *)
Fixpoint boolean_index {A} (mask : list bool) (s : list A) : list A :=
  match mask, s with
  | b :: mask, x :: s =>
      if b then x :: boolean_index mask s else boolean_index mask s
  | _, _ => []
  end.

(** [data[mask]]: the same rows of every column. *)
Definition filter_rows (mask : list bool) (data : Cleaned) : Cleaned :=
  {| cat := boolean_index mask <$> cat data;
     num := boolean_index mask <$> num data |}.

(** [str.lower()] on ASCII text: the letters A-Z become a-z. (Python also
    lowercases letters outside ASCII, which a byte string does not show;
    statements about [str_lower] are made for ASCII text.) *)
Definition lower_ascii (c : Ascii.ascii) : Ascii.ascii :=
  let n := Ascii.nat_of_ascii c in
  if (65 <=? n)%nat && (n <=? 90)%nat then Ascii.ascii_of_nat (n + 32) else c.

Fixpoint str_lower (s : string) : string :=
  match s with
  | EmptyString => EmptyString
  | String c s' => String (lower_ascii c) (str_lower s')
  end.

Fixpoint is_ascii (s : string) : bool :=
  match s with
  | EmptyString => true
  | String c s' => (Ascii.nat_of_ascii c <? 128)%nat && is_ascii s'
  end.

Definition gender_names : gmap string string :=
  {[ "male" := "M"; "female" := "F" ]}.

(** [s.replace(names)] with a dict: a value that is a key is replaced, any
    other value is kept. *)
Definition Series_replace (names : gmap string string) (s : list string)
  : list string :=
  (λ v, default v (names !! v)) <$> s.

Definition clean_cell (t : RawTable) : result Cleaned :=
  let data := dropna t in
  education ← getitem (cat data) "education";
  let data :=
    filter_rows ((λ v, bool_decide (v ≠ "unknown")) <$> education) data in
  gender ← getitem (cat data) "gender";
  Ok {| cat := <["gender" := Series_replace gender_names (str_lower <$> gender)]>
                 (cat data);
        num := num data |}.

(** What the cleaning cell makes of a gender value: lower case, then
    "male" and "female" replaced by "M" and "F". *)
Definition normalise_gender (w : string) : string :=
  default (str_lower w) (gender_names !! str_lower w).

(** The code the encoder gives to a raw gender value that went through the
    cleaning cell. *)
Definition gender_code (w : string) : option Z :=
  if decide (str_lower w = "male") then Some 0%Z
  else if decide (str_lower w = "female") then Some 1%Z
  else None.

(** The rows the cleaning cell keeps: no missing cell, and an education
    other than "unknown" ([edu] is the education column). *)
Definition kept_by_cleaning (t : RawTable) (edu : list (option string))
  : list nat :=
  filter (λ i, edu !! i ≠ Some (Some "unknown"))
    (filter (notna_row t) (seq 0 (nrows t))).

(** * Sample frames *)

Definition demo_frame : DataFrame :=
  {[ "Basic_Computer_Knowledge_Score" := [24; 25; 26; 12.5];
     "Internet_Usage_Score" := [30; 10; 25; 40];
     "Mobile_Literacy_Score" := [26; 27; 5; 33];
     "Post_Training_Basic_Computer_Knowledge_Score" := [30; 20; 26; 40];
     "Post_Training_Internet_Usage_Score" := [35; 22; 21; 41];
     "Post_Training_Mobile_Literacy_Score" := [29; 30; 11; 30] ]}.

(** [demo_frame] after the gain cell. *)
Definition demo_gains : DataFrame :=
  setitem (setitem (setitem demo_frame
    "Computer_Gain" [6; -5; 0; 27.5]) "Internet_Gain" [5; 12; -4; 1])
    "Mobile_Gain" [3; 3; 6; -3].


(** Two respondents with the same gain (20) and different starting scores. *)
Definition equal_gains : DataFrame :=
  {[ "Basic_Computer_Knowledge_Score" := [20; 30];
     "Internet_Usage_Score" := [20; 30];
     "Mobile_Literacy_Score" := [20; 30];
     "Post_Training_Basic_Computer_Knowledge_Score" := [40; 50];
     "Post_Training_Internet_Usage_Score" := [40; 50];
     "Post_Training_Mobile_Literacy_Score" := [40; 50] ]}.



(** Thirty respondents in three groups whose shares of label 0 are 0.8, 0.3
    and 0.9. *)
Definition three_groups : CodedFrame :=
  {[ "region" := replicate 10 (Some 1%Z) ++ replicate 10 (Some 2%Z)
                   ++ replicate 10 (Some 3%Z);
     "label" := replicate 8 (Some 0%Z) ++ replicate 2 (Some 1%Z)
                  ++ replicate 3 (Some 0%Z) ++ replicate 7 (Some 1%Z)
                  ++ replicate 9 (Some 0%Z) ++ replicate 1 (Some 1%Z) ]}.

(** Two groups with the same shares; group 2 comes first in [tie_2_first]
    and group 1 comes first in [tie_1_first]. *)
Definition tie_2_first : CodedFrame :=
  {[ "region" := [Some 2; Some 2; Some 1; Some 1]%Z;
     "label" := [Some 0; Some 1; Some 0; Some 1]%Z ]}.

Definition tie_1_first : CodedFrame :=
  {[ "region" := [Some 1; Some 1; Some 2; Some 2]%Z;
     "label" := [Some 0; Some 1; Some 0; Some 1]%Z ]}.

(** The respondents with a group value all have label 0; the only
    respondent with label 1 has no group value. *)
Definition single_class : CodedFrame :=
  {[ "region" := [Some 1; Some 2; None]%Z;
     "label" := [Some 0; Some 0; Some 1]%Z ]}.

(** A respondent whose education has no entry in [education_codes]. *)
Definition raw_phd : RawFrame :=
  {[ "gender" := ["F"; "M"];
     "education" := ["bachelor"; "phd"];
     "employment" := ["full-time"; "unemployed"] ]}.

(** A raw table of five respondents: one without an age, one of unknown
    education. *)
Definition raw_table : RawTable :=
  {| nrows := 5;
     text := {[ "gender" := [Some "Male"; Some "FEMALE"; Some "female";
                             Some "M"; Some "other"];
                "education" := [Some "bachelor"; Some "master";
                                Some "unknown"; Some "none"; Some "none"];
                "employment" := [Some "full-time"; Some "part-time";
                                 Some "unemployed"; Some "unemployed";
                                 Some "full-time"] ]};
     numbers := {[ "age" := [Some 30; None; Some 41; Some 25; Some 52] ]} |}.

(** [raw_table] with the six score columns. *)
Definition raw_scores : RawTable :=
  {| nrows := 5;
     text := text raw_table;
     numbers :=
       {[ "age" := [Some 30; None; Some 41; Some 25; Some 52];
          "Basic_Computer_Knowledge_Score" :=
            [Some 24; Some 25; Some 26; Some 12.5; Some 40];
          "Internet_Usage_Score" := [Some 30; Some 10; Some 25; Some 40; Some 7];
          "Mobile_Literacy_Score" := [Some 26; Some 27; Some 5; Some 33; Some 9];
          "Post_Training_Basic_Computer_Knowledge_Score" :=
            [Some 30; Some 20; Some 26; Some 40; Some 41];
          "Post_Training_Internet_Usage_Score" :=
            [Some 35; Some 22; Some 21; Some 41; Some 9];
          "Post_Training_Mobile_Literacy_Score" :=
            [Some 29; Some 30; Some 11; Some 30; Some 9] ]} |}.

(** * Reference definitions of the specification (used for comparison only)

    The notebook never computes a median; [Series_median] is pandas' median
    (middle entry of the sorted values, or the mean of the two middle ones),
    and [spec_median_split] is the labelling the specification describes. *)



(** The ranking the specification describes for [top_n_worst_groups]: the
    groups of each column in first-seen order, ranked by descending share of
    label 0 with ties kept in that order, the first [n] taken and tagged. *)
Definition first_seen (l : list Z) : list Z :=
  reverse (remove_dups (reverse l)).

Definition spec_ranked (rows : list (Z * Z)) : list (Z * Q) :=
  stable_sort_desc
    ((λ k, (k, ratio (pair_count rows k 0) (group_size rows k)))
       <$> first_seen (rows.*1)).

Fixpoint spec_top_n_worst_groups (df : CodedFrame) (group_cols : list string)
    (label_col : string) (n : nat) : list (string * Z) * list Q :=
  match group_cols with
  | [] => ([], [])
  | group :: group_cols =>
      let top := take n (spec_ranked
        (kept_rows (default [] (df !! group)) (default [] (df !! label_col))))
      in
      let rest := spec_top_n_worst_groups df group_cols label_col n in
      (((λ r : Z * Q, (group, r.1)) <$> top) ++ rest.1, top.*2 ++ rest.2)
  end.

(** * Predicates of the statements *)

(** ** Gain columns *)


(** ** Label columns *)

Definition label_columns : list string :=
  ["Computer_Skill_Label"; "Internet_Usage_Label"; "Mobile_Literacy_Label";
   "Computer_Gain_Label"; "Internet_Gain_Label"; "Mobile_Gain_Label"].

(** The column a labelling pass writes: one label per row of [values], cut
    at [t] ([None] is a NaN cut-off). *)
Definition cut (values : list Q) (t : option Q) : list Q :=
  (λ x, le_label_nan x t) <$> values.

Definition with_labels (data : DataFrame) (l1 l2 l3 l4 l5 l6 : list Q)
  : DataFrame :=
  setitem (setitem (setitem (setitem (setitem (setitem data
    "Computer_Skill_Label" l1) "Internet_Usage_Label" l2)
    "Mobile_Literacy_Label" l3) "Computer_Gain_Label" l4)
    "Internet_Gain_Label" l5) "Mobile_Gain_Label" l6.



(** Every label is 0 or 1. *)
Definition binary (labels : list Q) : Prop :=
  Forall (λ v, v = 0 ∨ v = 1) labels.

(** ** Encoding *)

(** One coded cell per row: the code of a mapped value, NaN for any other. *)
Definition coded_by (codes : gmap string Z) (s : list string)
    (c : list (option Z)) : Prop :=
  length c = length s ∧
  ∀ i v, s !! i = Some v →
    c !! i = Some (codes !! v) ∧
    (∀ z, codes !! v = Some z → c !! i = Some (Some z)) ∧
    (codes !! v = None → c !! i = Some None).

(** ** The share of label 1 after a quantile split *)

Global Instance Qle_transitive : Transitive Qle := Qle_trans.

Global Instance Qeq_decision : RelDecision Qeq := Qeq_dec.



Global Instance Q_eq_dec : EqDecision Q.
Proof. solve_decision. Defined.





(** ** Group proportions and ranking *)

(** The frame built from the kept rows when the labels that occur are
    [lo < hi]. *)
Definition two_columns (rows : list (Z * Z)) (lo hi : Z) : Grouped :=
  (λ k, (k, (default 0 (proportion_cell rows k lo),
             default 0 (proportion_cell rows k hi))))
    <$> sorted_values (rows.*1).

(** [top] is the first [n] rows of some descending ranking of the
    'Below Average' column of [grouped]. *)
Definition ranked_top (n : nat) (grouped : Grouped) (top : list (Z * Q))
  : Prop :=
  ∃ ranked,
    ranked ≡ₚ below_average grouped ∧ Sorted descending ranked ∧
    top = take n ranked.

(** The bar labels of one group column. *)
Definition tagged (group : string) (top : list (Z * Q)) : list (string * Z) :=
  (λ r : Z * Q, (group, r.1)) <$> top.

(** ** Further predicates *)

(** The six score columns in the order in which the gain cell reads them. *)
Definition gain_inputs : list string :=
  ["Post_Training_Basic_Computer_Knowledge_Score";
   "Basic_Computer_Knowledge_Score";
   "Post_Training_Internet_Usage_Score"; "Internet_Usage_Score";
   "Post_Training_Mobile_Literacy_Score"; "Mobile_Literacy_Score"].

Definition gain_columns : list string :=
  ["Computer_Gain"; "Internet_Gain"; "Mobile_Gain"].

(** Each label column with the score column whose rows it labels. *)
Definition labelled_scores : list (string * string) :=
  [("Computer_Skill_Label", "Basic_Computer_Knowledge_Score");
   ("Internet_Usage_Label", "Internet_Usage_Score");
   ("Mobile_Literacy_Label", "Mobile_Literacy_Score");
   ("Computer_Gain_Label", "Basic_Computer_Knowledge_Score");
   ("Internet_Gain_Label", "Internet_Usage_Score");
   ("Mobile_Gain_Label", "Mobile_Literacy_Score")].

(** A row with a score at least as high never has a lower label. *)
Definition monotone_labels (data : DataFrame) (label_col score_col : string)
  : Prop :=
  ∃ scores labels,
    data !! score_col = Some scores ∧ data !! label_col = Some labels ∧
    ∀ i j x y a b,
      scores !! i = Some x → scores !! j = Some y →
      labels !! i = Some a → labels !! j = Some b →
      x <= y → a <= b.


(** Every code that is not NaN lies between [lo] and [hi]. *)
Definition codes_within (lo hi : Z) (c : list (option Z)) : Prop :=
  Forall (λ o, ∀ z, o = Some z → (lo ≤ z ≤ hi)%Z) c.

(** Two rows with the same code (not NaN) have the same category. *)
Definition codes_distinguish (s : list string) (c : list (option Z)) : Prop :=
  ∀ i j z, c !! i = Some (Some z) → c !! j = Some (Some z) → s !! i = s !! j.

(** The number of rows [head(n)] returns from a series of [len] rows. *)
Definition head_count (n : Z) (len : nat) : nat :=
  if decide (0 ≤ n)%Z then Nat.min (Z.to_nat n) len
  else (len - Z.to_nat (- n))%nat.

(** The mask of the rows that have both a group value and a label. *)
Definition both_present (keys labels : list (option Z)) : list bool :=
  zip_with (λ k v, bool_decide (is_Some k ∧ is_Some v)) keys labels.

(** * Properties *)

(** [frame_rows] of a literal frame, by evaluation. *)
Ltac frame_rows_by_computation :=
  unfold frame_rows; apply (bool_decide_unpack _); by vm_compute.

(** ** The result monad and [apply] *)

Lemma apply_ext {A B} (f g : A → result B) (s : list A) :
  (∀ x, x ∈ s → f x = g x) → apply f s = apply g s.
Proof.
  induction s as [|x s IH]; intros Hfg; [done|].
  simpl. rewrite (Hfg x) by left.
  rewrite IH; [done|]. intros y Hy. apply Hfg. by right.
Qed.

Lemma apply_pure {A B} (f : A → B) (s : list A) :
  apply (λ x, Ok (f x)) s = Ok (f <$> s).
Proof. induction s as [|x s IH]; [done|]. simpl. by rewrite IH. Qed.

Lemma getitem_Some {A} (data : gmap string (list A)) c s :
  data !! c = Some s → getitem data c = Ok s.
Proof. intros H. unfold getitem. by rewrite H. Qed.

Lemma getitem_setitem_ne (data : DataFrame) c c' s :
  c ≠ c' → getitem (setitem data c s) c' = getitem data c'.
Proof. intros H. unfold getitem, setitem. by rewrite lookup_insert_ne. Qed.

(** ** Gain columns *)


Lemma series_sub_length (post pre : list Q) n :
  length post = n → length pre = n → length (series_sub post pre) = n.
Proof. intros H1 H2. unfold series_sub. rewrite length_zip_with. lia. Qed.




(** ** Quantiles are defined on non-empty columns *)

Lemma merge_sort_length (s : list Q) : length (merge_sort Qle s) = length s.
Proof. apply Permutation_length, merge_sort_Permutation. Qed.

Lemma valid_q_spec q : valid_q q = true ↔ 0 <= q ∧ q <= 1.
Proof.
  unfold valid_q. rewrite andb_true_iff, !Qle_bool_iff. tauto.
Qed.

(** The floor of the virtual index [(n-1)*q] is a valid position. *)
Lemma virtual_index_bounds (n : nat) (q : Q) :
  0 <= q → q <= 1 →
  (0 ≤ Qfloor (inject_Z (Z.of_nat n) * q) ≤ Z.of_nat n)%Z.
Proof.
  intros H0 H1.
  assert (Hn : 0 <= inject_Z (Z.of_nat n)).
  { change 0 with (inject_Z 0). rewrite <- Zle_Qle. lia. }
  split.
  - change 0%Z with (Qfloor 0). apply Qfloor_resp_le. nra.
  - rewrite <- (Qfloor_Z (Z.of_nat n)) at 2. apply Qfloor_resp_le. nra.
Qed.

Lemma percentile_linear_is_Some (s : list Q) (q : Q) :
  s ≠ [] → valid_q q = true → is_Some (percentile_linear s q).
Proof.
  intros Hs [H0 H1]%valid_q_spec. unfold percentile_linear.
  pose proof (merge_sort_length s) as Hlen.
  destruct s as [|x s]; [done|]. simpl in Hlen.
  set (a := merge_sort Qle (x :: s)) in *.
  pose proof (virtual_index_bounds (length a - 1) q H0 H1) as Hb.
  set (i := Qfloor _) in *.
  destruct (lookup_lt_is_Some_2 a (Z.to_nat i)) as [lo Hlo]; [lia|].
  destruct (lookup_lt_is_Some_2 a (Nat.min (Z.to_nat i + 1) (length a - 1)))
    as [hi Hhi]; [lia|].
  rewrite Hlo, Hhi. simpl. eauto.
Qed.

(** ** Running the two labelling cells *)

Lemma median_label_cell_run (data : DataFrame) (cs is_ ms : list Q) :
  data !! "Basic_Computer_Knowledge_Score" = Some cs →
  data !! "Internet_Usage_Score" = Some is_ →
  data !! "Mobile_Literacy_Score" = Some ms →
  median_label_cell data =
    Ok (with_labels data (cut cs (Some 25)) (cut is_ (Some 25))
          (cut ms (Some 26)) (cut cs (Some 25)) (cut is_ (Some 25))
          (cut ms (Some 26))).
Proof.
  intros H1 H2 H3. unfold median_label_cell.
  repeat (rewrite ?getitem_setitem_ne by done;
          rewrite ?(getitem_Some _ _ _ H1), ?(getitem_Some _ _ _ H2),
            ?(getitem_Some _ _ _ H3); simpl; rewrite ?apply_pure; simpl).
  done.
Qed.

Lemma access_labels_run (data : DataFrame) col src q (s c : list Q) :
  data !! col = Some s → data !! src = Some c → valid_q q = true →
  access_labels data col src q = Ok (cut s (percentile_linear c q)).
Proof.
  intros Hs Hc Hq. unfold access_labels.
  rewrite (getitem_Some _ _ _ Hs). simpl.
  rewrite (apply_ext _ (λ x, Ok (le_label_nan x (percentile_linear c q)))).
  - apply apply_pure.
  - intros x _. rewrite (getitem_Some _ _ _ Hc). simpl.
    unfold Series_quantile. by rewrite Hq.
Qed.

Lemma gain_labels_run (data : DataFrame) col src q (s c : list Q) :
  data !! col = Some s → data !! src = Some c → valid_q q = true →
  length c = length s →
  gain_labels data col src q = Ok (cut s (percentile_linear c q)).
Proof.
  intros Hs Hc Hq Hlen. unfold gain_labels.
  rewrite (getitem_Some _ _ _ Hs). simpl.
  rewrite (apply_ext _ (λ x, Ok (le_label_nan x (percentile_linear c q)))).
  - apply apply_pure.
  - intros x Hx. rewrite (getitem_Some _ _ _ Hc). simpl.
    unfold np_quantile. rewrite Hq.
    destruct (percentile_linear_is_Some c q) as [t ->]; [|done..].
    intros ->. destruct s; [by apply not_elem_of_nil in Hx|done].
Qed.

Lemma access_labels_setitem (data : DataFrame) col src q c' l :
  col ≠ c' → src ≠ c' →
  access_labels (setitem data c' l) col src q = access_labels data col src q.
Proof.
  intros H1 H2. unfold access_labels.
  by rewrite !getitem_setitem_ne by done.
Qed.

Lemma gain_labels_setitem (data : DataFrame) col src q c' l :
  col ≠ c' → src ≠ c' →
  gain_labels (setitem data c' l) col src q = gain_labels data col src q.
Proof.
  intros H1 H2. unfold gain_labels.
  by rewrite !getitem_setitem_ne by done.
Qed.

Lemma quantile_label_cell_run (data : DataFrame) (n : nat)
    (cs is_ ms cg ig mg : list Q) :
  frame_rows data n →
  data !! "Basic_Computer_Knowledge_Score" = Some cs →
  data !! "Internet_Usage_Score" = Some is_ →
  data !! "Mobile_Literacy_Score" = Some ms →
  data !! "Computer_Gain" = Some cg →
  data !! "Internet_Gain" = Some ig →
  data !! "Mobile_Gain" = Some mg →
  quantile_label_cell data =
    Ok (with_labels data
          (cut cs (percentile_linear cs 0.63))
          (cut is_ (percentile_linear is_ 0.56))
          (cut ms (percentile_linear ms 0.69))
          (cut cs (percentile_linear cg 0.56))
          (cut is_ (percentile_linear ig 0.55))
          (cut ms (percentile_linear mg 0.6))).
Proof.
  intros Hn H1 H2 H3 H4 H5 H6. unfold quantile_label_cell.
  rewrite (access_labels_run _ _ _ _ _ _ H1 H1) by done. simpl.
  rewrite !access_labels_setitem by done.
  rewrite (access_labels_run _ _ _ _ _ _ H2 H2) by done. simpl.
  rewrite !access_labels_setitem by done.
  rewrite (access_labels_run _ _ _ _ _ _ H3 H3) by done. simpl.
  rewrite !gain_labels_setitem by done.
  rewrite (gain_labels_run _ _ _ _ _ _ H1 H4); [|done|].
  2: { by rewrite (Hn _ _ H1), (Hn _ _ H4). }
  simpl. rewrite !gain_labels_setitem by done.
  rewrite (gain_labels_run _ _ _ _ _ _ H2 H5); [|done|].
  2: { by rewrite (Hn _ _ H2), (Hn _ _ H5). }
  simpl. rewrite !gain_labels_setitem by done.
  rewrite (gain_labels_run _ _ _ _ _ _ H3 H6); [|done|].
  2: { by rewrite (Hn _ _ H3), (Hn _ _ H6). }
  done.
Qed.

(** ** What the labelling cells write *)

Lemma le_label_binary x t : le_label x t = 0 ∨ le_label x t = 1.
Proof. unfold le_label. destruct (Qle_bool x t); auto. Qed.

Lemma cut_length values t : length (cut values t) = length values.
Proof. unfold cut. by rewrite length_fmap. Qed.

Lemma cut_binary values t : binary (cut values t).
Proof.
  unfold binary, cut. apply Forall_fmap, Forall_true. intros x.
  destruct t as [t|]; simpl; [apply le_label_binary|by right].
Qed.





(** C10: the per-row labelling function is total and returns 0 or 1 for
    every score and every cut-off, and both labelling cells succeed on every
    frame that has the columns they read, leaving in each of the six label
    columns one value per row, each of them 0 or 1. *)
Theorem label_columns_binary (data : DataFrame) (n : nat)
    (cs is_ ms cg ig mg : list Q) :
  frame_rows data n →
  data !! "Basic_Computer_Knowledge_Score" = Some cs →
  data !! "Internet_Usage_Score" = Some is_ →
  data !! "Mobile_Literacy_Score" = Some ms →
  data !! "Computer_Gain" = Some cg →
  data !! "Internet_Gain" = Some ig →
  data !! "Mobile_Gain" = Some mg →
  (∀ x t, le_label x t = 0 ∨ le_label x t = 1) ∧
  ∃ by_median by_quantile,
    median_label_cell data = Ok by_median ∧
    quantile_label_cell data = Ok by_quantile ∧
    ∀ c, c ∈ label_columns →
      (∃ l, by_median !! c = Some l ∧ length l = n ∧ binary l) ∧
      (∃ l, by_quantile !! c = Some l ∧ length l = n ∧ binary l).
Proof.
  intros Hn H1 H2 H3 H4 H5 H6. split; [apply le_label_binary|].
  eexists _, _.
  split; [by apply median_label_cell_run|].
  split; [by eapply quantile_label_cell_run|].
  intros c Hc. unfold label_columns in Hc.
  pose proof (Hn _ _ H1). pose proof (Hn _ _ H2). pose proof (Hn _ _ H3).
  unfold with_labels, setitem.
  repeat (apply elem_of_cons in Hc as [->|Hc];
    [split; eexists; (split; [by simplify_map_eq|]);
       (split; [by rewrite cut_length|apply cut_binary])|]).
  by apply elem_of_nil in Hc.
Qed.

Lemma label_columns_binary_witness :
  ∃ by_median by_quantile l l',
    median_label_cell demo_gains = Ok by_median ∧
    quantile_label_cell demo_gains = Ok by_quantile ∧
    by_median !! "Mobile_Gain_Label" = Some l ∧ binary l ∧
    by_quantile !! "Mobile_Gain_Label" = Some l' ∧ binary l'.
Proof.
  destruct (label_columns_binary demo_gains 4 _ _ _ _ _ _
              ltac:(frame_rows_by_computation)
              eq_refl eq_refl eq_refl eq_refl eq_refl eq_refl)
    as (_ & m & q & Hm & Hq & Hc).
  destruct (Hc "Mobile_Gain_Label") as [(l & Hl & _ & Hb) (l' & Hl' & _ & Hb')].
  { unfold label_columns. do 5 apply list_elem_of_further.
    apply list_elem_of_here. }
  exists m, q, l, l'.
  exact (conj Hm (conj Hq (conj Hl (conj Hb (conj Hl' Hb'))))).
Defined.

(** ** Fixed cut-offs against the median split of the specification *)






(** C2: the gain labels are computed from the pre-training score, not from
    the gain. In [equal_gains] both respondents gain 20 points, yet after the
    fixed cut-off cell and again after the quantile cell the first has gain
    label 0 and the second gain label 1, in all three domains. *)
Theorem gain_label_not_from_gain :
  let gains := gain_cell equal_gains in
  let by_median := gains ≫= median_label_cell in
  let by_quantile := by_median ≫= quantile_label_cell in
  column_of gains "Computer_Gain" = Some [20; 20] ∧
  column_of gains "Internet_Gain" = Some [20; 20] ∧
  column_of gains "Mobile_Gain" = Some [20; 20] ∧
  column_of by_median "Computer_Gain_Label" = Some [0; 1] ∧
  column_of by_median "Internet_Gain_Label" = Some [0; 1] ∧
  column_of by_median "Mobile_Gain_Label" = Some [0; 1] ∧
  column_of by_quantile "Computer_Gain_Label" = Some [0; 1] ∧
  column_of by_quantile "Internet_Gain_Label" = Some [0; 1] ∧
  column_of by_quantile "Mobile_Gain_Label" = Some [0; 1].
Proof. repeat split; by vm_compute. Qed.

(** ** Encoding *)

Lemma Series_map_coded_by codes s : coded_by codes s (Series_map codes s).
Proof.
  unfold Series_map. split; [by rewrite length_fmap|]. intros i v Hv.
  rewrite list_lookup_fmap, Hv. simpl.
  split; [done|]. split; [by intros z ->|by intros ->].
Qed.

(** C6 (as the cell is written): the encoder never fails on a category value:
    on every frame that has the three categorical columns it returns the
    coded columns, where a value with an entry in the fixed mapping is
    replaced by its code and a value with no entry becomes a missing value
    (NaN); no error, and no [UnknownCategory] error in particular, is
    raised. *)
Theorem encode_cell_unmapped_is_nan (raw : RawFrame)
    (gender education employment : list string) :
  raw !! "gender" = Some gender →
  raw !! "education" = Some education →
  raw !! "employment" = Some employment →
  ∃ coded g e m,
    encode_cell raw = Ok coded ∧
    coded !! "gender" = Some g ∧ coded_by gender_codes gender g ∧
    coded !! "education" = Some e ∧ coded_by education_codes education e ∧
    coded !! "employment" = Some m ∧ coded_by employment_codes employment m.
Proof.
  intros Hg He Hm. unfold encode_cell.
  rewrite (getitem_Some _ _ _ Hg), (getitem_Some _ _ _ He),
    (getitem_Some _ _ _ Hm). simpl.
  eexists _, _, _, _. split; [done|].
  do 2 (split; [by simplify_map_eq|]; split; [apply Series_map_coded_by|]).
  split; [by simplify_map_eq|]. apply Series_map_coded_by.
Qed.

Lemma encode_cell_unmapped_is_nan_witness :
  ∃ coded e,
    encode_cell raw_phd = Ok coded ∧
    coded !! "education" = Some e ∧
    coded_by education_codes ["bachelor"; "phd"] e.
Proof.
  destruct (encode_cell_unmapped_is_nan raw_phd _ _ _
              eq_refl eq_refl eq_refl)
    as (coded & g & e & m & Hrun & _ & _ & He & Hc & _).
  exists coded, e. exact (conj Hrun (conj He Hc)).
Defined.

(** C6 as stated fails: "phd" has no entry in the education mapping, and the
    encoder returns a frame in which that cell is NaN instead of failing. *)
Lemma unknown_category_counterexample :
  education_codes !! "phd" = None ∧
  (∃ coded, encode_cell raw_phd = Ok coded ∧
            coded !! "education" = Some [Some 4%Z; None]) ∧
  ∀ v, encode_cell raw_phd ≠ Err (UnknownCategory v).
Proof.
  split; [by vm_compute|]. split.
  - eexists. split; [reflexivity|]. by vm_compute.
  - intros v. by vm_compute.
Qed.

(** ** Sorted columns and counting *)

Global Instance Qle_total : Total Qle.
Proof. intros x y. destruct (Qlt_le_dec x y); [left|right]; lra. Qed.





(** ** The quantile cut-off and the number of rows at or below it *)




(** ** The share of label 1 after a quantile split *)








(** ** Group proportions *)

Lemma sorted_values_elem (l : list Z) x : x ∈ sorted_values l ↔ x ∈ l.
Proof.
  unfold sorted_values. by rewrite merge_sort_Permutation, elem_of_remove_dups.
Qed.

Lemma sorted_values_unique (l k : list Z) :
  NoDup k → Sorted Z.le k → (∀ x, x ∈ l ↔ x ∈ k) → sorted_values l = k.
Proof.
  intros Hnd Hk Hlk. unfold sorted_values.
  apply (Sorted_unique Z.le); [apply Sorted_merge_sort; apply _|done|].
  rewrite merge_sort_Permutation.
  apply NoDup_Permutation; [apply NoDup_remove_dups|done|].
  intros x. by rewrite elem_of_remove_dups.
Qed.

Lemma sorted_values_ext (l l' : list Z) :
  (∀ x, x ∈ l ↔ x ∈ l') → sorted_values l = sorted_values l'.
Proof.
  intros Hll. apply sorted_values_unique.
  - unfold sorted_values. rewrite merge_sort_Permutation.
    apply NoDup_remove_dups.
  - apply Sorted_merge_sort; apply _.
  - intros x. by rewrite sorted_values_elem.
Qed.

Lemma set_two_columns_Ok (rows : list (Z * Z)) (lo hi : Z) :
  sorted_values (rows.*2) = [lo; hi] →
  set_two_columns (fillna 0 (value_counts_unstack rows))
    = Ok (two_columns rows lo hi).
Proof.
  intros Hc. unfold set_two_columns, fillna, value_counts_unstack. simpl.
  rewrite Hc. simpl. f_equal. unfold two_columns.
  rewrite <- !list_fmap_compose. by apply list_fmap_ext.
Qed.

Lemma set_two_columns_Err (rows : list (Z * Z)) :
  length (sorted_values (rows.*2)) ≠ 2%nat →
  set_two_columns (fillna 0 (value_counts_unstack rows))
    = Err (LengthMismatch (length (sorted_values (rows.*2))) 2).
Proof.
  intros Hc. unfold set_two_columns, fillna, value_counts_unstack. simpl.
  by rewrite decide_False.
Qed.

Lemma grouped_proportions_run (df : CodedFrame) group_col label_col
    (keys labels : list (option Z)) :
  df !! group_col = Some keys → df !! label_col = Some labels →
  grouped_proportions df group_col label_col =
    set_two_columns (fillna 0 (value_counts_unstack (kept_rows keys labels))).
Proof.
  intros Hk Hl. unfold grouped_proportions.
  by rewrite (getitem_Some _ _ _ Hk), (getitem_Some _ _ _ Hl).
Qed.


Lemma group_size_pos (rows : list (Z * Z)) (k : Z) :
  k ∈ rows.*1 → (1 ≤ group_size rows k)%nat.
Proof.
  intros (r & -> & Hr)%list_elem_of_fmap. unfold group_size.
  assert (Hin : r ∈ filter (λ r' : Z * Z, r'.1 = r.1) rows)
    by (by apply list_elem_of_filter).
  destruct (filter _ rows); [by apply not_elem_of_nil in Hin|simpl; lia].
Qed.

Lemma proportion_cell_ratio (rows : list (Z * Z)) (k v : Z) :
  default 0 (proportion_cell rows k v)
    == ratio (pair_count rows k v) (group_size rows k).
Proof.
  unfold proportion_cell. case_decide as Hc; simpl; [|reflexivity].
  rewrite Hc. unfold ratio. simpl. unfold Qdiv. ring.
Qed.


Lemma ratio_sum (c0 c1 n : nat) :
  (c0 + c1)%nat = n → (1 ≤ n)%nat → ratio c0 n + ratio c1 n == 1.
Proof.
  intros <- Hn. unfold ratio. rewrite Nat2Z.inj_add, inject_Z_plus.
  assert (0 < inject_Z (Z.of_nat c0) + inject_Z (Z.of_nat c1)).
  { rewrite <- inject_Z_plus, <- Nat2Z.inj_add.
    change 0 with (inject_Z 0). rewrite <- Zlt_Qlt. lia. }
  field. lra.
Qed.



(** ** The renaming needs exactly two label values *)

Lemma grouped_proportions_cases (df : CodedFrame) group_col label_col
    (keys labels : list (option Z)) :
  df !! group_col = Some keys → df !! label_col = Some labels →
  let classes := sorted_values ((kept_rows keys labels).*2) in
  (length classes = 2%nat ∧
   ∃ grouped, grouped_proportions df group_col label_col = Ok grouped) ∨
  (length classes ≠ 2%nat ∧
   grouped_proportions df group_col label_col
     = Err (LengthMismatch (length classes) 2)).
Proof.
  intros Hk Hl classes. rewrite (grouped_proportions_run _ _ _ _ _ Hk Hl).
  destruct (decide (length classes = 2%nat)) as [Hc|Hc].
  - left. split; [done|].
    destruct classes as [|lo [|hi [|]]] eqn:E; try done.
    eexists. by apply set_two_columns_Ok.
  - right. split; [done|]. by apply set_two_columns_Err.
Qed.

Lemma bar_graph_loop_Ok sort_values (df : CodedFrame) label_col top_n
    group_cols w p r group :
  bar_graph_loop sort_values df label_col top_n group_cols w p = Ok r →
  group ∈ group_cols →
  ∃ grouped, grouped_proportions df group label_col = Ok grouped.
Proof.
  revert w p. induction group_cols as [|g group_cols IH]; intros w p Hrun Hin.
  { by apply elem_of_nil in Hin. }
  simpl in Hrun.
  destruct (grouped_proportions df g label_col) as [grouped|e] eqn:Hg;
    simpl in Hrun; [|done].
  apply elem_of_cons in Hin as [->|Hin]; [by eauto|].
  by eapply IH.
Qed.

Lemma bar_graph_loop_Err sort_values (df : CodedFrame) label_col top_n
    group_cols w p group labels :
  df !! label_col = Some labels →
  (∀ g, g ∈ group_cols → is_Some (df !! g)) →
  group ∈ group_cols →
  (∀ grouped, grouped_proportions df group label_col ≠ Ok grouped) →
  ∃ m, m ≠ 2%nat ∧
    bar_graph_loop sort_values df label_col top_n group_cols w p
      = Err (LengthMismatch m 2).
Proof.
  intros Hl. revert w p.
  induction group_cols as [|g group_cols IH]; intros w p Hcols Hin Hbad.
  { by apply elem_of_nil in Hin. }
  destruct (Hcols g) as [keys Hk]; [by left|]. simpl.
  destruct (grouped_proportions_cases df g label_col keys labels Hk Hl)
    as [[_ [grouped Hg]]|[Hne Hg]]; rewrite Hg; simpl.
  - apply elem_of_cons in Hin as [->|Hin]; [by destruct (Hbad grouped)|].
    apply IH; [|done..]. intros g' Hg'. apply Hcols. by right.
  - eauto.
Qed.

(** C9: with both columns present, [averages_calculate] returns a frame
    exactly when the labels of the grouped rows take exactly two distinct
    values; for any other number (a single class, none, three or more) the
    renaming to ['Below Average', 'Above Average'] fails with a length
    mismatch. [bar_graph] renames in the same way for each of its group
    columns: it returns only when every one of them has two label values,
    and fails with a length mismatch otherwise. *)
Theorem two_label_values_required (df : CodedFrame)
    (group_col label_col : string) (keys labels : list (option Z)) :
  df !! group_col = Some keys →
  df !! label_col = Some labels →
  let classes := sorted_values ((kept_rows keys labels).*2) in
  (length classes = 2%nat ↔
   ∃ grouped, averages_calculate df group_col label_col = Ok grouped) ∧
  (length classes ≠ 2%nat →
   averages_calculate df group_col label_col
     = Err (LengthMismatch (length classes) 2)) ∧
  ∀ sort_values group_cols top_n,
    group_col ∈ group_cols →
    ((∃ r, bar_graph sort_values df group_cols label_col top_n = Ok r) →
     length classes = 2%nat) ∧
    (length classes ≠ 2%nat →
     (∀ g, g ∈ group_cols → is_Some (df !! g)) →
     ∃ m, m ≠ 2%nat ∧
       bar_graph sort_values df group_cols label_col top_n
         = Err (LengthMismatch m 2)).
Proof.
  intros Hk Hl classes. unfold averages_calculate.
  pose proof (grouped_proportions_cases df group_col label_col keys labels
                Hk Hl) as Hcases.
  fold classes in Hcases.
  assert (Hiff : length classes = 2%nat ↔
    ∃ grouped, grouped_proportions df group_col label_col = Ok grouped).
  { destruct Hcases as [[Hc Hg]|[Hc Hg]]; [done|].
    split; [done|]. intros [grouped Hg']. congruence. }
  split; [done|]. split.
  { intros Hc. by destruct Hcases as [[? _]|[_ ?]]. }
  intros sort_values group_cols top_n Hin. split.
  - intros [r Hr]. apply Hiff. by eapply bar_graph_loop_Ok.
  - intros Hc Hcols. eapply bar_graph_loop_Err; [done..|].
    intros grouped Hg. apply Hc, Hiff. eauto.
Qed.

Lemma two_label_values_required_witness :
  averages_calculate single_class "region" "label"
    = Err (LengthMismatch 1 2).
Proof.
  destruct (two_label_values_required single_class "region" "label" _ _
              eq_refl eq_refl) as (_ & Herr & _).
  apply Herr. by vm_compute.
Defined.

(** ** Ranking the groups *)

Lemma bar_graph_loop_run sort_values (df : CodedFrame) label_col top_n
    group_cols groupeds w p :
  Forall2 (λ group grouped, grouped_proportions df group label_col = Ok grouped)
    group_cols groupeds →
  let tops :=
    (λ grouped, Series_head top_n (sort_values (below_average grouped)))
      <$> groupeds in
  bar_graph_loop sort_values df label_col top_n group_cols w p
    = Ok (w ++ concat (zip_with tagged group_cols tops),
          p ++ concat ((λ top : list (Z * Q), top.*2) <$> tops)).
Proof.
  intros Hall. revert w p.
  induction Hall as [|g grouped group_cols groupeds Hg _ IH]; intros w p.
  { simpl. by rewrite !app_nil_r. }
  simpl. rewrite Hg. simpl. rewrite IH. by rewrite <- !app_assoc.
Qed.

Lemma Series_head_ranked_top sort_values (top_n : Z) (grouped : Grouped) :
  sorts_descending sort_values → (0 ≤ top_n)%Z →
  ranked_top (Z.to_nat top_n) grouped
    (Series_head top_n (sort_values (below_average grouped))).
Proof.
  intros Hsort Hn. destruct (Hsort (below_average grouped)) as [Hperm Hdesc].
  exists (sort_values (below_average grouped)).
  split; [done|]. split; [done|]. unfold Series_head. by rewrite decide_True.
Qed.

(** ** Reordering the rows *)

Lemma omap_lookup_seq {A} (l : list A) (j m : nat) :
  omap (λ i, l !! i) (seq j m) = take m (drop j l).
Proof.
  revert j. induction m as [|m IH]; intros j; [done|].
  simpl. rewrite IH. destruct (l !! j) as [x|] eqn:Hj.
  - by rewrite (drop_S l x j Hj).
  - apply lookup_ge_None in Hj. rewrite !drop_ge by lia. by destruct m.
Qed.

Lemma omap_lookup_zip {A B} (k : list A) (v : list B) (p : list nat) :
  length k = length v →
  zip (omap (λ i, k !! i) p) (omap (λ i, v !! i) p)
    = omap (λ i, zip k v !! i) p.
Proof.
  intros Hlen. induction p as [|i p IH]; [done|]. simpl.
  rewrite lookup_zip_with.
  destruct (k !! i) as [a|] eqn:Ha, (v !! i) as [b|] eqn:Hb; simpl.
  - f_equal. apply IH.
  - apply lookup_lt_Some in Ha. apply lookup_ge_None in Hb. lia.
  - apply lookup_ge_None in Ha. apply lookup_lt_Some in Hb. lia.
  - done.
Qed.

Lemma reorder_rows (k v : list (option Z)) (p : list nat) (n : nat) :
  p ≡ₚ seq 0 n → length k = n → length v = n →
  kept_rows (omap (λ i, k !! i) p) (omap (λ i, v !! i) p) ≡ₚ kept_rows k v.
Proof.
  intros Hp Hk Hv. unfold kept_rows.
  rewrite omap_lookup_zip by congruence. rewrite Hp, omap_lookup_seq.
  rewrite drop_0, take_ge; [done|]. rewrite length_zip_with. lia.
Qed.

Lemma value_counts_unstack_Permutation (rows rows' : list (Z * Z)) :
  rows ≡ₚ rows' → value_counts_unstack rows = value_counts_unstack rows'.
Proof.
  intros Hperm. unfold value_counts_unstack.
  assert (H1 : sorted_values (rows.*1) = sorted_values (rows'.*1)).
  { apply sorted_values_ext. intros x.
    by rewrite (fmap_Permutation fst _ _ Hperm). }
  assert (H2 : sorted_values (rows.*2) = sorted_values (rows'.*2)).
  { apply sorted_values_ext. intros x.
    by rewrite (fmap_Permutation snd _ _ Hperm). }
  rewrite H1, H2. f_equal. apply list_fmap_ext. intros _ k _. f_equal.
  apply list_fmap_ext. intros _ v _.
  assert (Hpc : pair_count rows k v = pair_count rows' k v).
  { unfold pair_count. by rewrite Hperm. }
  assert (Hgs : group_size rows k = group_size rows' k).
  { unfold group_size. by rewrite Hperm. }
  unfold proportion_cell. by rewrite Hpc, Hgs.
Qed.

Lemma grouped_proportions_reorder (df : CodedFrame) (p : list nat) (n : nat)
    group_col label_col :
  p ≡ₚ seq 0 n → map_Forall (λ _ s, length s = n) df →
  grouped_proportions (reorder p df) group_col label_col
    = grouped_proportions df group_col label_col.
Proof.
  intros Hp Hn. unfold grouped_proportions, getitem, reorder.
  rewrite !lookup_fmap.
  destruct (df !! group_col) as [k|] eqn:Hk; simpl; [|done].
  destruct (df !! label_col) as [v|] eqn:Hv; simpl; [|done].
  f_equal. f_equal. apply value_counts_unstack_Permutation.
  apply (reorder_rows k v p n Hp); by eapply Hn.
Qed.

Lemma bar_graph_loop_reorder sort_values (df : CodedFrame) (p : list nat)
    (n : nat) label_col top_n group_cols w q :
  p ≡ₚ seq 0 n → map_Forall (λ _ s, length s = n) df →
  bar_graph_loop sort_values (reorder p df) label_col top_n group_cols w q
    = bar_graph_loop sort_values df label_col top_n group_cols w q.
Proof.
  intros Hp Hn. revert w q.
  induction group_cols as [|g group_cols IH]; intros w q; [done|].
  simpl. rewrite (grouped_proportions_reorder df p n) by done.
  destruct (grouped_proportions df g label_col); simpl; [apply IH|done].
Qed.

(** ** A sort that meets [sorts_descending] *)

Global Instance descending_transitive : Transitive descending.
Proof. intros a b c Hab Hbc. unfold descending in *. lra. Qed.

Lemma insert_desc_Permutation x s : insert_desc x s ≡ₚ x :: s.
Proof.
  induction s as [|y s IH]; [done|]. simpl.
  destruct (Qle_bool y.2 x.2); [done|]. by rewrite IH, Permutation_swap.
Qed.

Lemma insert_desc_HdRel x y s :
  descending y x → HdRel descending y s → HdRel descending y (insert_desc x s).
Proof.
  intros Hyx Hys. destruct s as [|z s]; simpl; [by constructor|].
  destruct (Qle_bool z.2 x.2); constructor; [done|]. by inversion Hys.
Qed.

Lemma insert_desc_Sorted x s :
  Sorted descending s → Sorted descending (insert_desc x s).
Proof.
  induction 1 as [|y s Hs IH Hy]; simpl; [by repeat constructor|].
  destruct (Qle_bool y.2 x.2) eqn:E.
  - apply Qle_bool_iff in E. by repeat constructor.
  - constructor; [done|]. apply insert_desc_HdRel; [|done].
    unfold descending.
    destruct (Qlt_le_dec x.2 y.2) as [?|Hle]; [lra|].
    apply Qle_bool_iff in Hle. congruence.
Qed.

Lemma stable_sort_desc_sorts : sorts_descending stable_sort_desc.
Proof.
  intros s. unfold stable_sort_desc.
  induction s as [|x s [IHp IHs]]; [split; [done|constructor]|]. simpl. split.
  - by rewrite insert_desc_Permutation, IHp.
  - by apply insert_desc_Sorted.
Qed.

(** ** The three-group scenario *)

Lemma three_groups_grouped :
  grouped_proportions three_groups "region" "label"
    = Ok [(1%Z, (0.8, 0.2)); (2%Z, (0.3, 0.7)); (3%Z, (0.9, 0.1))].
Proof. by vm_compute. Qed.

Lemma three_groups_ranking sort_values :
  sorts_descending sort_values →
  sort_values [(1%Z, 0.8); (2%Z, 0.3); (3%Z, 0.9)]
    = [(3%Z, 0.9); (1%Z, 0.8); (2%Z, 0.3)].
Proof.
  intros Hsort.
  destruct (Hsort [(1%Z, 0.8); (2%Z, 0.3); (3%Z, 0.9)]) as [Hperm Hdesc].
  symmetry. apply (Sorted_unique_strong descending); [| |done|].
  - intros x1 x2 H1 H2 Ha Hb. unfold descending in *. rewrite Hperm in H2.
    repeat (apply elem_of_cons in H1 as [->|H1]);
      try (by apply elem_of_nil in H1);
      repeat (apply elem_of_cons in H2 as [->|H2]);
      try (by apply elem_of_nil in H2);
      try done; exfalso; cbn [snd] in *; lra.
  - repeat constructor; unfold descending; cbn [snd]; lra.
  - rewrite Hperm.
    apply (Permutation_cons_append [(1%Z, 0.8); (2%Z, 0.3)] (3%Z, 0.9)).
Qed.

Lemma three_groups_top_two sort_values :
  sorts_descending sort_values →
  bar_graph sort_values three_groups ["region"] "label" 2
    = Ok ([("region", 3%Z); ("region", 1%Z)], [0.9; 0.8]).
Proof.
  intros Hsort. unfold bar_graph. simpl. rewrite three_groups_grouped. simpl.
  change (below_average _) with [(1%Z, 0.8); (2%Z, 0.3); (3%Z, 0.9)].
  by rewrite (three_groups_ranking sort_values Hsort).
Qed.

(** C8 (as the function is written): for each group column in turn the
    groups are ranked by descending Below-Average share and the first n are
    taken (n >= 0); the bar labels, each tagged with its group column, and
    the shares of all columns are concatenated in the order of the group
    columns. The order of groups with equal shares is the one [sort_values]
    gives on the grouped frame; it does not follow the order in which the
    groups are first seen, since the result is the same for every reordering
    of the rows. With n = 2 and three groups of shares 0.8, 0.3, 0.9 the
    result is the groups of shares 0.9 and 0.8, in that order. *)
Theorem bar_graph_ranking sort_values (df : CodedFrame)
    (group_cols : list string) (label_col : string) (top_n : Z)
    (groupeds : list Grouped) :
  sorts_descending sort_values →
  (0 ≤ top_n)%Z →
  Forall2 (λ group grouped,
             averages_calculate df group label_col = Ok grouped)
    group_cols groupeds →
  (∃ tops,
     Forall2 (ranked_top (Z.to_nat top_n)) groupeds tops ∧
     bar_graph sort_values df group_cols label_col top_n
       = Ok (concat (zip_with tagged group_cols tops),
             concat ((λ top : list (Z * Q), top.*2) <$> tops))) ∧
  (∀ p n, p ≡ₚ seq 0 n → map_Forall (λ _ s, length s = n) df →
     bar_graph sort_values (reorder p df) group_cols label_col top_n
       = bar_graph sort_values df group_cols label_col top_n) ∧
  bar_graph sort_values three_groups ["region"] "label" 2
    = Ok ([("region", 3%Z); ("region", 1%Z)], [0.9; 0.8]).
Proof.
  intros Hsort Hn Hall. split; [|split].
  - exists ((λ grouped,
               Series_head top_n (sort_values (below_average grouped)))
              <$> groupeds).
    split.
    + apply Forall2_fmap_r, Forall_Forall2_diag, Forall_true.
      intros grouped. by apply Series_head_ranked_top.
    + unfold bar_graph.
      by rewrite (bar_graph_loop_run _ _ _ _ _ groupeds [] [] Hall).
  - intros p n Hp Hrows. by apply (bar_graph_loop_reorder _ _ _ n).
  - by apply three_groups_top_two.
Qed.

Lemma bar_graph_ranking_witness :
  ∃ tops,
    Forall2 (ranked_top 2)
      [[(1%Z, (0.8, 0.2)); (2%Z, (0.3, 0.7)); (3%Z, (0.9, 0.1))]] tops ∧
    bar_graph stable_sort_desc three_groups ["region"] "label" 2
      = Ok (concat (zip_with tagged ["region"] tops),
            concat ((λ top : list (Z * Q), top.*2) <$> tops)).
Proof.
  refine (proj1 (bar_graph_ranking stable_sort_desc three_groups ["region"]
                   "label" 2 _ stable_sort_desc_sorts _ _)).
  - lia.
  - repeat constructor.
Defined.

(** C8 as stated fails on ties. [tie_2_first] and [tie_1_first] hold the
    same four respondents in a different order; both groups have share 1/2.
    Breaking the tie by first-seen order selects group 2 in the first frame
    and group 1 in the second, but [bar_graph] returns the same result for
    both frames, whatever [sort_values] does with equal values. *)
Lemma first_seen_tie_counterexample :
  spec_top_n_worst_groups tie_2_first ["region"] "label" 1
    = ([("region", 2%Z)], [1 # 2]) ∧
  spec_top_n_worst_groups tie_1_first ["region"] "label" 1
    = ([("region", 1%Z)], [1 # 2]) ∧
  ¬ ∃ sort_values,
      bar_graph sort_values tie_2_first ["region"] "label" 1
        = Ok (spec_top_n_worst_groups tie_2_first ["region"] "label" 1) ∧
      bar_graph sort_values tie_1_first ["region"] "label" 1
        = Ok (spec_top_n_worst_groups tie_1_first ["region"] "label" 1).
Proof.
  split; [by vm_compute|]. split; [by vm_compute|].
  intros (sort_values & H2 & H1).
  assert (Hsame : grouped_proportions tie_2_first "region" "label"
                  = grouped_proportions tie_1_first "region" "label")
    by (by vm_compute).
  unfold bar_graph in H1, H2. simpl in H1, H2. rewrite Hsame in H2.
  rewrite H2 in H1. vm_compute in H1. discriminate H1.
Qed.

(** * Further properties of the cells *)

(** ** Cleaning *)

Lemma take_rows_Forall2 {A} (rows : list nat) (s : list (option A)) :
  Forall (λ i, is_Some (mjoin (s !! i))) rows →
  Forall2 (λ i v, s !! i = Some (Some v)) rows (take_rows rows s).
Proof.
  unfold take_rows. induction 1 as [|i rows [v Hv] _ IH]; simpl; [constructor|].
  rewrite Hv. constructor; [|done].
  destruct (s !! i) as [[w|]|]; simpl in Hv; congruence.
Qed.

Lemma boolean_index_Forall2 {A B} (R : A → B → Prop) (mask : list bool)
    (l : list A) (k : list B) :
  Forall2 R l k → Forall2 R (boolean_index mask l) (boolean_index mask k).
Proof.
  intros H. revert mask. induction H as [|x y l k Hxy _ IH]; intros mask.
  { destruct mask; constructor. }
  destruct mask as [|[] mask]; simpl; [constructor|by constructor|done].
Qed.

Lemma boolean_index_filter {A B} (P : A → Prop) `{∀ x, Decision (P x)}
    (f : B → bool) (l : list A) (k : list B) :
  Forall2 (λ x y, f y = true ↔ P x) l k →
  boolean_index (f <$> k) l = filter P l.
Proof.
  induction 1 as [|x y l k Hxy _ IH]; [done|].
  rewrite fmap_cons, filter_cons. simpl. rewrite IH.
  destruct (f y) eqn:E.
  - rewrite decide_True; [done|]. by apply Hxy.
  - rewrite decide_False; [done|]. intros HP. apply Hxy in HP. congruence.
Qed.



Lemma getitem_fmap {A B} (f : list A → list B) (m : gmap string (list A)) c s :
  m !! c = Some s → getitem (f <$> m) c = Ok (f s).
Proof. intros H. unfold getitem. by rewrite lookup_fmap, H. Qed.

Lemma select_take_rows {A} (edu : list (option string)) (s : list (option A))
    (rows : list nat) :
  Forall (λ i, is_Some (mjoin (edu !! i))) rows →
  Forall (λ i, is_Some (mjoin (s !! i))) rows →
  boolean_index ((λ v, bool_decide (v ≠ "unknown")) <$> take_rows rows edu)
    (take_rows rows s)
  = take_rows (filter (λ i, edu !! i ≠ Some (Some "unknown")) rows) s.
Proof.
  unfold take_rows.
  induction rows as [|i rows IH]; intros He Hs; [done|].
  apply Forall_cons in He as [[e He] He'].
  apply Forall_cons in Hs as [[v Hv] Hs'].
  rewrite filter_cons. simpl. rewrite He, Hv. simpl.
  assert (Hi : edu !! i = Some (Some e)).
  { destruct (edu !! i) as [[w|]|]; simpl in He; congruence. }
  rewrite Hi. destruct (decide (e = "unknown")) as [->|Hne].
  - rewrite bool_decide_false, decide_False by naive_solver. by apply IH.
  - rewrite bool_decide_true, decide_True by naive_solver.
    simpl. rewrite Hv. simpl. f_equal. by apply IH.
Qed.

Lemma notna_rows_present_text (t : RawTable) c (s : list (option string)) :
  text t !! c = Some s →
  Forall (λ i, is_Some (mjoin (s !! i)))
    (filter (notna_row t) (seq 0 (nrows t))).
Proof.
  intros Hs. apply Forall_forall. intros i [[Ht _] _]%list_elem_of_filter.
  by apply (Ht c s).
Qed.

Lemma notna_rows_present_numbers (t : RawTable) c (s : list (option Q)) :
  numbers t !! c = Some s →
  Forall (λ i, is_Some (mjoin (s !! i)))
    (filter (notna_row t) (seq 0 (nrows t))).
Proof.
  intros Hs. apply Forall_forall. intros i [[_ Hn] _]%list_elem_of_filter.
  by apply (Hn c s).
Qed.

Lemma clean_cell_run (t : RawTable) (edu gen : list (option string)) :
  text t !! "education" = Some edu →
  text t !! "gender" = Some gen →
  clean_cell t =
    Ok {| cat := <["gender" := normalise_gender
                                 <$> take_rows (kept_by_cleaning t edu) gen]>
                   (take_rows (kept_by_cleaning t edu) <$> text t);
          num := take_rows (kept_by_cleaning t edu) <$> numbers t |}.
Proof.
  intros He Hg. unfold clean_cell, dropna, filter_rows, kept_by_cleaning.
  cbn [cat num].
  set (rows1 := filter (notna_row t) (seq 0 (nrows t))).
  pose proof (notna_rows_present_text t _ _ He) as Hedu. fold rows1 in Hedu.
  rewrite (getitem_fmap _ _ _ _ He). simpl.
  set (mask := (λ v, bool_decide (v ≠ "unknown")) <$> take_rows rows1 edu).
  rewrite <- !map_fmap_compose.
  rewrite (getitem_fmap _ _ _ _ Hg). simpl. f_equal.
  assert (Htext : (boolean_index mask ∘ take_rows rows1) <$> text t
    = take_rows (filter (λ i, edu !! i ≠ Some (Some "unknown")) rows1)
        <$> text t).
  { apply map_fmap_ext. intros c s Hs. simpl. apply select_take_rows; [done|].
    by apply (notna_rows_present_text t c). }
  assert (Hnum : (boolean_index mask ∘ take_rows rows1) <$> numbers t
    = take_rows (filter (λ i, edu !! i ≠ Some (Some "unknown")) rows1)
        <$> numbers t).
  { apply map_fmap_ext. intros c s Hs. simpl. apply select_take_rows; [done|].
    by apply (notna_rows_present_numbers t c). }
  rewrite Htext, Hnum. f_equal. f_equal.
  unfold mask. rewrite select_take_rows; [|done|].
  - unfold Series_replace. rewrite <- list_fmap_compose.
    by apply list_fmap_ext.
  - by apply (notna_rows_present_text t "gender").
Qed.

Lemma kept_by_cleaning_elem (t : RawTable) edu i :
  i ∈ kept_by_cleaning t edu ↔
  (i < nrows t)%nat ∧ notna_row t i ∧ edu !! i ≠ Some (Some "unknown").
Proof.
  unfold kept_by_cleaning. rewrite !list_elem_of_filter, elem_of_seq.
  intuition lia.
Qed.


Lemma kept_by_cleaning_length (t : RawTable) edu :
  (length (kept_by_cleaning t edu) ≤ nrows t)%nat.
Proof.
  unfold kept_by_cleaning.
  etrans; [apply length_filter|]. etrans; [apply length_filter|].
  by rewrite length_seq.
Qed.

Lemma kept_rows_text (t : RawTable) edu c (s : list (option string)) :
  text t !! c = Some s →
  Forall2 (λ i v, s !! i = Some (Some v))
    (kept_by_cleaning t edu) (take_rows (kept_by_cleaning t edu) s).
Proof.
  intros Hs. apply take_rows_Forall2, Forall_forall.
  intros i [_ [[Ht _] _]]%kept_by_cleaning_elem. by apply (Ht c s).
Qed.

Lemma kept_rows_numbers (t : RawTable) edu c (s : list (option Q)) :
  numbers t !! c = Some s →
  Forall2 (λ i v, s !! i = Some (Some v))
    (kept_by_cleaning t edu) (take_rows (kept_by_cleaning t edu) s).
Proof.
  intros Hs. apply take_rows_Forall2, Forall_forall.
  intros i [_ [[_ Hn] _]]%kept_by_cleaning_elem. by apply (Hn c s).
Qed.



Lemma normalise_gender_not_word (w : string) :
  normalise_gender w ≠ "male" ∧ normalise_gender w ≠ "female".
Proof.
  unfold normalise_gender, gender_names.
  destruct (decide (str_lower w = "male")) as [->|Hm]; [by vm_compute|].
  rewrite lookup_insert_ne by done.
  destruct (decide (str_lower w = "female")) as [->|Hf]; [by vm_compute|].
  by rewrite lookup_singleton_ne.
Qed.

(** X2: after the cleaning cell all columns have the same number of rows,
    which is at most the number of rows of the raw table; no education cell
    is "unknown" and no gender cell is "male" or "female". *)
Theorem clean_cell_invariants (t : RawTable) (edu gen : list (option string)) :
  text t !! "education" = Some edu →
  text t !! "gender" = Some gen →
  ∃ c m,
    clean_cell t = Ok c ∧ (m ≤ nrows t)%nat ∧
    map_Forall (λ _ s, length s = m) (cat c) ∧
    frame_rows (num c) m ∧
    (∀ s, cat c !! "education" = Some s → "unknown" ∉ s) ∧
    (∀ s, cat c !! "gender" = Some s →
          Forall (λ v, v ≠ "male" ∧ v ≠ "female") s).
Proof.
  intros He Hg. eexists _, (length (kept_by_cleaning t edu)).
  split; [by apply clean_cell_run|].
  split; [apply kept_by_cleaning_length|]. cbn [cat num].
  split; [|split; [|split]].
  - intros col s. rewrite lookup_insert. case_decide as Hc.
    + intros [= <-]. rewrite length_fmap. symmetry.
      by eapply Forall2_length, (kept_rows_text t edu "gender").
    + rewrite lookup_fmap. destruct (text t !! col) as [s0|] eqn:Hs; [|done].
      intros [= <-]. symmetry.
      by eapply Forall2_length, (kept_rows_text t edu col).
  - intros col s. rewrite lookup_fmap.
    destruct (numbers t !! col) as [s0|] eqn:Hs; [|done].
    intros [= <-]. symmetry.
    by eapply Forall2_length, (kept_rows_numbers t edu col).
  - intros s. rewrite lookup_insert_ne, lookup_fmap, He by done.
    intros [= <-] Hin.
    pose proof (kept_rows_text t edu "education" edu He) as Hall.
    apply list_elem_of_lookup_1 in Hin as [j Hj].
    destruct (Forall2_lookup_r _ _ _ _ _ Hall Hj) as (i & Hi & Hcell).
    apply list_elem_of_lookup_2, kept_by_cleaning_elem in Hi.
    by destruct Hi as (_ & _ & Hne).
  - intros s. rewrite lookup_insert_eq. intros [= <-].
    apply Forall_fmap, Forall_true. intros w. apply normalise_gender_not_word.
Qed.

Lemma clean_cell_invariants_witness :
  ∃ c m, clean_cell raw_table = Ok c ∧ (m ≤ 5)%nat ∧ frame_rows (num c) m.
Proof.
  destruct (clean_cell_invariants raw_table _ _ eq_refl eq_refl)
    as (c & m & Hrun & Hm & _ & Hnum & _).
  exists c, m. exact (conj Hrun (conj Hm Hnum)).
Defined.

(** X3: a table without an education column makes the cleaning cell raise
    KeyError for "education" (also when gender is missing too); with an
    education column but no gender column it raises KeyError for "gender". *)
Theorem clean_cell_missing_column (t : RawTable) :
  (text t !! "education" = None → numbers t !! "education" = None →
   clean_cell t = Err (KeyError "education")) ∧
  (is_Some (text t !! "education") →
   text t !! "gender" = None → numbers t !! "gender" = None →
   clean_cell t = Err (KeyError "gender")).
Proof.
  split.
  - intros He _. unfold clean_cell, dropna, getitem. cbn [cat].
    by rewrite lookup_fmap, He.
  - intros [edu He] Hg _. unfold clean_cell, dropna, filter_rows.
    cbn [cat num].
    rewrite (getitem_fmap _ _ _ _ He). simpl.
    unfold getitem. by rewrite !lookup_fmap, Hg.
Qed.

Lemma clean_cell_missing_column_witness :
  clean_cell {| nrows := 5; text := delete "gender" (text raw_table);
                numbers := numbers raw_table |}
    = Err (KeyError "gender").
Proof.
  apply (proj2 (clean_cell_missing_column _)).
  - by eexists.
  - reflexivity.
  - reflexivity.
Defined.

Lemma lower_ascii_not_upper (c : Ascii.ascii) :
  String (lower_ascii c) "" ≠ "M" ∧ String (lower_ascii c) "" ≠ "F".
Proof.
  destruct c as [[] [] [] [] [] [] [] []]; split; by vm_compute.
Qed.

Lemma str_lower_not_upper (w : string) :
  str_lower w ≠ "M" ∧ str_lower w ≠ "F".
Proof.
  destruct w as [|c [|c' w]]; simpl; [done| |done].
  apply lower_ascii_not_upper.
Qed.

Lemma gender_code_spec (w : string) :
  gender_codes !! normalise_gender w = gender_code w.
Proof.
  unfold normalise_gender, gender_code, gender_names.
  destruct (decide (str_lower w = "male")) as [->|Hm]; [by vm_compute|].
  rewrite lookup_insert_ne by done.
  destruct (decide (str_lower w = "female")) as [->|Hf]; [by vm_compute|].
  rewrite lookup_singleton_ne by done. simpl.
  destruct (str_lower_not_upper w). unfold gender_codes.
  rewrite lookup_insert_ne by done. by rewrite lookup_singleton_ne.
Qed.

(** X4: cleaning followed by encoding. For a table of ASCII gender values
    that has the gender, education and employment columns, both cells
    succeed, and the gender code of each kept row is 0 when the raw value
    is "male" in any letter case, 1 when it is "female" in any letter case,
    and NaN otherwise. A raw value "M" or "F" is lower-cased before the
    replacement and ends as NaN. *)
Theorem clean_then_encode_gender (t : RawTable)
    (edu gen emp : list (option string)) :
  text t !! "education" = Some edu →
  text t !! "gender" = Some gen →
  text t !! "employment" = Some emp →
  Forall (λ o, ∀ w, o = Some w → is_ascii w = true) gen →
  (∃ c coded g,
     clean_cell t = Ok c ∧ encode_cell (cat c) = Ok coded ∧
     coded !! "gender" = Some g ∧
     Forall2 (λ i code, ∃ w, gen !! i = Some (Some w) ∧ code = gender_code w)
       (kept_by_cleaning t edu) g) ∧
  (∀ w, gender_code w = Some 0%Z ↔ str_lower w = "male") ∧
  (∀ w, gender_code w = Some 1%Z ↔ str_lower w = "female") ∧
  gender_code "M" = None ∧ gender_code "F" = None.
Proof.
  intros He Hg Hm _. split; [|split; [|split]].
  - eexists _, _, _. split; [by apply clean_cell_run|].
    unfold encode_cell. cbn [cat].
    unfold getitem. rewrite lookup_insert_eq.
    rewrite !lookup_insert_ne, !lookup_fmap, He, Hm by done. simpl.
    split; [done|]. rewrite lookup_insert_ne, lookup_insert_ne by done.
    rewrite lookup_insert_eq. split; [done|].
    unfold Series_map. rewrite <- list_fmap_compose. apply Forall2_fmap_r.
    eapply Forall2_impl; [by apply (kept_rows_text t edu "gender")|].
    intros i w Hw. simpl in *. exists w. split; [done|].
    apply gender_code_spec.
  - intros w. unfold gender_code. repeat case_decide; split; congruence.
  - intros w. unfold gender_code. repeat case_decide; split; congruence.
  - split; by vm_compute.
Qed.

Lemma clean_then_encode_gender_witness :
  ∃ c coded g,
    clean_cell raw_table = Ok c ∧ encode_cell (cat c) = Ok coded ∧
    coded !! "gender" = Some g.
Proof.
  destruct (clean_then_encode_gender raw_table _ _ _ eq_refl eq_refl eq_refl)
    as [(c & coded & g & Hc & He & Hg & _) _].
  { repeat constructor; intros w [= <-]; reflexivity. }
  exists c, coded, g. exact (conj Hc (conj He Hg)).
Defined.

(** ** The gain cell and the order of the cells *)

Lemma getitem_None {A} (data : gmap string (list A)) c :
  data !! c = None → getitem data c = Err (KeyError c).
Proof. intros H. unfold getitem. by rewrite H. Qed.

(** X5: the gain cell succeeds exactly when the six score columns are
    present; otherwise it raises KeyError for the first missing one in its
    reading order (post before pre, computer, internet, mobile). *)
Theorem gain_cell_missing_column (data : DataFrame) :
  match head (filter (λ c, data !! c = None) gain_inputs) with
  | Some c => gain_cell data = Err (KeyError c)
  | None => ∃ data', gain_cell data = Ok data'
  end.
Proof.
  unfold gain_inputs, gain_cell.
  repeat (rewrite filter_cons;
    match goal with
    | |- context [decide (data !! ?c = None)] =>
        destruct (data !! c) as [?s|] eqn:?H;
        [rewrite decide_False by done;
         rewrite ?getitem_setitem_ne by done;
         rewrite (getitem_Some data c _) by done; simpl
        |rewrite decide_True by done; simpl;
         rewrite ?getitem_setitem_ne by done;
         by rewrite (getitem_None data c) by done]
    end).
  simpl. eauto.
Qed.

Lemma with_labels_other (data : DataFrame) l1 l2 l3 l4 l5 l6 c :
  c ∉ label_columns → with_labels data l1 l2 l3 l4 l5 l6 !! c = data !! c.
Proof.
  intros Hc. unfold with_labels, setitem.
  rewrite !lookup_insert_ne; [done|..]; intros <-; apply Hc;
    unfold label_columns; repeat first [apply list_elem_of_here
                                      |apply list_elem_of_further].
Qed.

Lemma with_labels_rows (data : DataFrame) n l1 l2 l3 l4 l5 l6 :
  frame_rows data n →
  length l1 = n → length l2 = n → length l3 = n →
  length l4 = n → length l5 = n → length l6 = n →
  frame_rows (with_labels data l1 l2 l3 l4 l5 l6) n.
Proof.
  intros Hn ?????? c s. unfold with_labels, setitem.
  rewrite !lookup_insert. repeat case_decide; try apply Hn; by intros [= <-].
Qed.

Lemma with_labels_overwrite (data : DataFrame)
    l1 l2 l3 l4 l5 l6 k1 k2 k3 k4 k5 k6 :
  with_labels (with_labels data l1 l2 l3 l4 l5 l6) k1 k2 k3 k4 k5 k6
  = with_labels data k1 k2 k3 k4 k5 k6.
Proof.
  apply map_eq. intros c. unfold with_labels, setitem.
  rewrite !lookup_insert. by repeat case_decide.
Qed.

Lemma not_label_column (c : string) :
  c ∈ gain_inputs ++ gain_columns → c ∉ label_columns.
Proof.
  unfold gain_inputs, gain_columns, label_columns. simpl. intros Hc Hl.
  repeat (apply elem_of_cons in Hc as [->|Hc];
    [clear -Hl; repeat (apply elem_of_cons in Hl as [Hl|Hl]; [done|]);
     by apply elem_of_nil in Hl|]).
  by apply elem_of_nil in Hc.
Qed.

Lemma median_then_quantile_run (data : DataFrame) (n : nat)
    (cs is_ ms cg ig mg : list Q) :
  frame_rows data n →
  data !! "Basic_Computer_Knowledge_Score" = Some cs →
  data !! "Internet_Usage_Score" = Some is_ →
  data !! "Mobile_Literacy_Score" = Some ms →
  data !! "Computer_Gain" = Some cg →
  data !! "Internet_Gain" = Some ig →
  data !! "Mobile_Gain" = Some mg →
  (median_label_cell data ≫= quantile_label_cell) =
    Ok (with_labels data
          (cut cs (percentile_linear cs 0.63))
          (cut is_ (percentile_linear is_ 0.56))
          (cut ms (percentile_linear ms 0.69))
          (cut cs (percentile_linear cg 0.56))
          (cut is_ (percentile_linear ig 0.55))
          (cut ms (percentile_linear mg 0.6))).
Proof.
  intros Hn H1 H2 H3 H4 H5 H6.
  rewrite (median_label_cell_run data cs is_ ms) by done. simpl.
  pose proof (Hn _ _ H1). pose proof (Hn _ _ H2). pose proof (Hn _ _ H3).
  erewrite (quantile_label_cell_run _ n cs is_ ms cg ig mg).
  - by rewrite with_labels_overwrite.
  - apply with_labels_rows; [done|by rewrite cut_length..].
  - rewrite with_labels_other; [done|]. apply not_label_column.
    unfold gain_inputs. simpl. do 1 right. left.
  - rewrite with_labels_other; [done|]. apply not_label_column.
    unfold gain_inputs. simpl. do 3 right. left.
  - rewrite with_labels_other; [done|]. apply not_label_column.
    unfold gain_inputs. simpl. do 5 right. left.
  - rewrite with_labels_other; [done|]. apply not_label_column.
    unfold gain_inputs. simpl. do 6 right. left.
  - rewrite with_labels_other; [done|]. apply not_label_column.
    unfold gain_inputs. simpl. do 7 right. left.
  - rewrite with_labels_other; [done|]. apply not_label_column.
    unfold gain_inputs. simpl. do 8 right. left.
Qed.

(** X6: the quantile cell overwrites what the fixed cut-off cell wrote.
    Running the fixed cut-off cell and then the quantile cell leaves exactly
    the frame that the quantile cell alone produces: none of the fixed
    cut-off labels survives. *)
Theorem quantile_labels_overwrite (data : DataFrame) (n : nat)
    (cs is_ ms cg ig mg : list Q) :
  frame_rows data n →
  data !! "Basic_Computer_Knowledge_Score" = Some cs →
  data !! "Internet_Usage_Score" = Some is_ →
  data !! "Mobile_Literacy_Score" = Some ms →
  data !! "Computer_Gain" = Some cg →
  data !! "Internet_Gain" = Some ig →
  data !! "Mobile_Gain" = Some mg →
  ∃ final,
    quantile_label_cell data = Ok final ∧
    (median_label_cell data ≫= quantile_label_cell) = Ok final.
Proof.
  intros Hn H1 H2 H3 H4 H5 H6. eexists.
  split; [by eapply quantile_label_cell_run|].
  by eapply median_then_quantile_run.
Qed.

Lemma quantile_labels_overwrite_witness :
  ∃ final,
    quantile_label_cell demo_gains = Ok final ∧
    (median_label_cell demo_gains ≫= quantile_label_cell) = Ok final.
Proof.
  exact (quantile_labels_overwrite demo_gains 4 _ _ _ _ _ _
           ltac:(frame_rows_by_computation)
           eq_refl eq_refl eq_refl eq_refl eq_refl eq_refl).
Defined.

Lemma gain_cell_run (data : DataFrame)
    (cpost cpre ipost ipre mpost mpre : list Q) :
  data !! "Post_Training_Basic_Computer_Knowledge_Score" = Some cpost →
  data !! "Basic_Computer_Knowledge_Score" = Some cpre →
  data !! "Post_Training_Internet_Usage_Score" = Some ipost →
  data !! "Internet_Usage_Score" = Some ipre →
  data !! "Post_Training_Mobile_Literacy_Score" = Some mpost →
  data !! "Mobile_Literacy_Score" = Some mpre →
  gain_cell data =
    Ok (setitem (setitem (setitem data
          "Computer_Gain" (series_sub cpost cpre))
          "Internet_Gain" (series_sub ipost ipre))
          "Mobile_Gain" (series_sub mpost mpre)).
Proof.
  intros H1 H2 H3 H4 H5 H6. unfold gain_cell.
  rewrite (getitem_Some _ _ _ H1), (getitem_Some _ _ _ H2). simpl.
  rewrite !getitem_setitem_ne by done.
  rewrite (getitem_Some _ _ _ H3), (getitem_Some _ _ _ H4). simpl.
  rewrite !getitem_setitem_ne by done.
  by rewrite (getitem_Some _ _ _ H5), (getitem_Some _ _ _ H6).
Qed.

Lemma label_pipeline_run (data : DataFrame) (n : nat)
    (cpost cpre ipost ipre mpost mpre : list Q) :
  frame_rows data n →
  data !! "Post_Training_Basic_Computer_Knowledge_Score" = Some cpost →
  data !! "Basic_Computer_Knowledge_Score" = Some cpre →
  data !! "Post_Training_Internet_Usage_Score" = Some ipost →
  data !! "Internet_Usage_Score" = Some ipre →
  data !! "Post_Training_Mobile_Literacy_Score" = Some mpost →
  data !! "Mobile_Literacy_Score" = Some mpre →
  ∃ final,
    ((gain_cell data ≫= median_label_cell) ≫= quantile_label_cell)
      = Ok final ∧
    frame_rows final n ∧
    (∀ c, c ∈ gain_columns ++ label_columns → is_Some (final !! c)) ∧
    (∀ c, c ∉ gain_columns ++ label_columns → final !! c = data !! c).
Proof.
  intros Hn H1 H2 H3 H4 H5 H6.
  assert (length cpost = n) by apply (Hn _ _ H1).
  assert (length cpre = n) by apply (Hn _ _ H2).
  assert (length ipost = n) by apply (Hn _ _ H3).
  assert (length ipre = n) by apply (Hn _ _ H4).
  assert (length mpost = n) by apply (Hn _ _ H5).
  assert (length mpre = n) by apply (Hn _ _ H6).
  rewrite (gain_cell_run data cpost cpre ipost ipre mpost mpre) by done.
  set (data1 := setitem (setitem (setitem data _ _) _ _) _ _).
  assert (Hn1 : frame_rows data1 n).
  { intros c s. unfold data1, setitem. rewrite !lookup_insert.
    repeat case_decide; try apply Hn; intros [= <-];
      by apply series_sub_length. }
  change ((Ok data1 ≫= median_label_cell) ≫= quantile_label_cell)
    with (median_label_cell data1 ≫= quantile_label_cell).
  erewrite (median_then_quantile_run data1 n cpre ipre mpre);
    [|done|unfold data1, setitem; by simplify_map_eq..].
  eexists. split; [done|]. split; [|split].
  - apply with_labels_rows; [done|by rewrite cut_length..].
  - intros c Hc. unfold gain_columns, label_columns in Hc. simpl in Hc.
    unfold with_labels, data1, setitem.
    repeat (apply elem_of_cons in Hc as [->|Hc]; [by simplify_map_eq|]).
    by apply elem_of_nil in Hc.
  - intros c Hc. rewrite with_labels_other.
    + unfold data1, setitem. rewrite !lookup_insert_ne; [done|..];
        intros <-; apply Hc; unfold gain_columns; simpl;
        repeat first [apply list_elem_of_here|apply list_elem_of_further].
    + intros Hl. apply Hc. apply elem_of_app. by right.
Qed.

(** X7: the three cells compose. On every frame of aligned columns that has
    the six score columns, the gain cell, the fixed cut-off cell and the
    quantile cell run in this order without an exception; the final frame
    has the same number of rows in every column, holds the three gain
    columns and the six label columns, and every other column is as it was
    in the input. *)
Theorem label_pipeline_runs (data : DataFrame) (n : nat)
    (cpost cpre ipost ipre mpost mpre : list Q) :
  frame_rows data n →
  data !! "Post_Training_Basic_Computer_Knowledge_Score" = Some cpost →
  data !! "Basic_Computer_Knowledge_Score" = Some cpre →
  data !! "Post_Training_Internet_Usage_Score" = Some ipost →
  data !! "Internet_Usage_Score" = Some ipre →
  data !! "Post_Training_Mobile_Literacy_Score" = Some mpost →
  data !! "Mobile_Literacy_Score" = Some mpre →
  ∃ final,
    ((gain_cell data ≫= median_label_cell) ≫= quantile_label_cell)
      = Ok final ∧
    frame_rows final n ∧
    (∀ c, c ∈ gain_columns ++ label_columns → is_Some (final !! c)) ∧
    (∀ c, c ∉ gain_columns ++ label_columns → final !! c = data !! c).
Proof. apply label_pipeline_run. Qed.

Lemma label_pipeline_runs_witness :
  ∃ final,
    ((gain_cell demo_frame ≫= median_label_cell) ≫= quantile_label_cell)
      = Ok final ∧ frame_rows final 4.
Proof.
  destruct (label_pipeline_runs demo_frame 4 _ _ _ _ _ _
              ltac:(frame_rows_by_computation)
              eq_refl eq_refl eq_refl eq_refl eq_refl eq_refl)
    as (final & Hrun & Hrows & _).
  exists final. exact (conj Hrun Hrows).
Defined.

(** ** More on the label columns *)

(** X8: in the fixed cut-off cell the three gain label columns are copies of
    the three access label columns; the cell does not read the gain
    columns. *)
Theorem median_gain_labels_copy_access (data : DataFrame)
    (cs is_ ms : list Q) :
  data !! "Basic_Computer_Knowledge_Score" = Some cs →
  data !! "Internet_Usage_Score" = Some is_ →
  data !! "Mobile_Literacy_Score" = Some ms →
  ∃ data',
    median_label_cell data = Ok data' ∧
    is_Some (data' !! "Computer_Skill_Label") ∧
    data' !! "Computer_Gain_Label" = data' !! "Computer_Skill_Label" ∧
    data' !! "Internet_Gain_Label" = data' !! "Internet_Usage_Label" ∧
    data' !! "Mobile_Gain_Label" = data' !! "Mobile_Literacy_Label".
Proof.
  intros H1 H2 H3. eexists. split; [by apply median_label_cell_run|].
  unfold with_labels, setitem. by simplify_map_eq.
Qed.

Lemma median_gain_labels_copy_access_witness :
  ∃ data',
    median_label_cell demo_frame = Ok data' ∧
    data' !! "Computer_Gain_Label" = data' !! "Computer_Skill_Label".
Proof.
  destruct (median_gain_labels_copy_access demo_frame _ _ _
              eq_refl eq_refl eq_refl) as (data' & Hrun & _ & Hc & _).
  exists data'. exact (conj Hrun Hc).
Defined.

Lemma le_label_nan_monotone (x y : Q) (t : option Q) :
  x <= y → le_label_nan x t <= le_label_nan y t.
Proof.
  intros Hxy. destruct t as [t|]; simpl; [|lra]. unfold le_label.
  destruct (Qle_bool y t) eqn:Ey.
  - apply Qle_bool_iff in Ey.
    assert (Ex : Qle_bool x t = true) by (apply Qle_bool_iff; lra).
    rewrite Ex. lra.
  - destruct (Qle_bool x t); lra.
Qed.

Lemma cut_monotone (data : DataFrame) label_col score_col values t :
  data !! score_col = Some values →
  data !! label_col = Some (cut values t) →
  monotone_labels data label_col score_col.
Proof.
  intros Hs Hl. exists values, (cut values t). split; [done|]. split; [done|].
  intros i j x y a b Hx Hy. unfold cut. rewrite !list_lookup_fmap, Hx, Hy.
  simpl. intros [= <-] [= <-]. apply le_label_nan_monotone.
Qed.

(** X9: both labelling cells are monotone in the score they label: within
    each of the six label columns, a row whose score is at least as high as
    another row's never gets the lower label. *)
Theorem labels_monotone_in_score (data : DataFrame) (n : nat)
    (cs is_ ms cg ig mg : list Q) :
  frame_rows data n →
  data !! "Basic_Computer_Knowledge_Score" = Some cs →
  data !! "Internet_Usage_Score" = Some is_ →
  data !! "Mobile_Literacy_Score" = Some ms →
  data !! "Computer_Gain" = Some cg →
  data !! "Internet_Gain" = Some ig →
  data !! "Mobile_Gain" = Some mg →
  ∃ by_median by_quantile,
    median_label_cell data = Ok by_median ∧
    quantile_label_cell data = Ok by_quantile ∧
    Forall (λ p, monotone_labels by_median p.1 p.2 ∧
                 monotone_labels by_quantile p.1 p.2) labelled_scores.
Proof.
  intros Hn H1 H2 H3 H4 H5 H6. eexists _, _.
  split; [by apply median_label_cell_run|].
  split; [by eapply quantile_label_cell_run|].
  unfold labelled_scores.
  repeat (apply Forall_cons; split;
    [split; (eapply cut_monotone;
       [rewrite with_labels_other; [done|];
        apply not_label_column; unfold gain_inputs; simpl;
        repeat first [by left|right]
       |unfold with_labels, setitem; by simplify_map_eq])|]).
  apply Forall_nil_2.
Qed.

Lemma labels_monotone_in_score_witness :
  ∃ by_quantile,
    quantile_label_cell demo_gains = Ok by_quantile ∧
    monotone_labels by_quantile "Mobile_Gain_Label" "Mobile_Literacy_Score".
Proof.
  destruct (labels_monotone_in_score demo_gains 4 _ _ _ _ _ _
              ltac:(frame_rows_by_computation)
              eq_refl eq_refl eq_refl eq_refl eq_refl eq_refl)
    as (m & q & _ & Hq & Hall).
  exists q. split; [done|].
  rewrite Forall_forall in Hall.
  refine (proj2 (Hall ("Mobile_Gain_Label", "Mobile_Literacy_Score") _)).
  unfold labelled_scores. do 5 apply list_elem_of_further.
  apply list_elem_of_here.
Defined.






Lemma gain_labels_missing (data : DataFrame) col src q x (s : list Q) :
  data !! col = Some (x :: s) → data !! src = None →
  gain_labels data col src q = Err (KeyError src).
Proof.
  intros Hs Hc. unfold gain_labels. rewrite (getitem_Some _ _ _ Hs). simpl.
  by rewrite (getitem_None _ _ Hc).
Qed.

Lemma gain_labels_empty (data : DataFrame) col src q :
  data !! col = Some [] → gain_labels data col src q = Ok [].
Proof.
  intros Hs. unfold gain_labels. by rewrite (getitem_Some _ _ _ Hs).
Qed.

(** X11: the quantile cell depends on the gain cell only through the rows.
    On a frame with the three score columns but without Computer_Gain, it
    raises KeyError for "Computer_Gain" as soon as the frame has one row
    (after the three access labels were computed); on a frame without rows
    the lambda is never called and the cell returns six empty label
    columns. *)
Theorem quantile_cell_needs_gain_columns (data : DataFrame)
    (cs is_ ms : list Q) :
  data !! "Basic_Computer_Knowledge_Score" = Some cs →
  data !! "Internet_Usage_Score" = Some is_ →
  data !! "Mobile_Literacy_Score" = Some ms →
  data !! "Computer_Gain" = None →
  (cs ≠ [] → quantile_label_cell data = Err (KeyError "Computer_Gain")) ∧
  (cs = [] → is_ = [] → ms = [] →
   ∃ data', quantile_label_cell data = Ok data' ∧
            ∀ c, c ∈ label_columns → data' !! c = Some []).
Proof.
  intros H1 H2 H3 Hg. split.
  - intros Hne. destruct cs as [|x cs]; [done|]. unfold quantile_label_cell.
    rewrite (access_labels_run _ _ _ _ _ _ H1 H1) by done. simpl.
    rewrite !access_labels_setitem by done.
    rewrite (access_labels_run _ _ _ _ _ _ H2 H2) by done. simpl.
    rewrite !access_labels_setitem by done.
    rewrite (access_labels_run _ _ _ _ _ _ H3 H3) by done. simpl.
    rewrite !gain_labels_setitem by done.
    by rewrite (gain_labels_missing _ _ _ _ _ _ H1 Hg).
  - intros -> -> ->. unfold quantile_label_cell.
    rewrite (access_labels_run _ _ _ _ _ _ H1 H1) by done. simpl.
    rewrite !access_labels_setitem by done.
    rewrite (access_labels_run _ _ _ _ _ _ H2 H2) by done. simpl.
    rewrite !access_labels_setitem by done.
    rewrite (access_labels_run _ _ _ _ _ _ H3 H3) by done. simpl.
    rewrite !gain_labels_setitem by done.
    rewrite (gain_labels_empty _ _ _ _ H1). simpl.
    rewrite !gain_labels_setitem by done.
    rewrite (gain_labels_empty _ _ _ _ H2). simpl.
    rewrite !gain_labels_setitem by done.
    rewrite (gain_labels_empty _ _ _ _ H3). simpl.
    eexists. split; [done|]. intros c Hc. unfold label_columns in Hc.
    unfold setitem.
    repeat (apply elem_of_cons in Hc as [->|Hc]; [by simplify_map_eq|]).
    by apply elem_of_nil in Hc.
Qed.

Lemma quantile_cell_needs_gain_columns_witness :
  quantile_label_cell demo_frame = Err (KeyError "Computer_Gain").
Proof.
  refine (proj1 (quantile_cell_needs_gain_columns demo_frame _ _ _
                   eq_refl eq_refl eq_refl eq_refl) _).
  done.
Defined.

(** ** More on the encoder *)

Lemma Series_map_within (codes : gmap string Z) (lo hi : Z) s :
  map_Forall (λ _ z, (lo ≤ z ≤ hi)%Z) codes →
  codes_within lo hi (Series_map codes s).
Proof.
  intros Hr. unfold codes_within, Series_map. apply Forall_fmap, Forall_true.
  intros v z Hz. simpl in Hz. by apply (Hr v z).
Qed.

Lemma Series_map_distinguish (codes : gmap string Z) s :
  map_Forall (λ v z, map_Forall (λ w z', z = z' → v = w) codes) codes →
  codes_distinguish s (Series_map codes s).
Proof.
  intros Hinj i j z. unfold Series_map. rewrite !list_lookup_fmap.
  destruct (s !! i) as [v|] eqn:Hv, (s !! j) as [w|] eqn:Hw; simpl; try done.
  intros [= Hi] [= Hj]. f_equal. by apply (Hinj v z Hi w z Hj).
Qed.

(** X12: the codes the encoder writes can be decoded. A coded gender cell is
    NaN or 0..1, an education cell NaN or 0..5, an employment cell NaN or
    0..2, and within a column two rows carry the same code only if they had
    the same category. *)
Theorem encode_cell_codes (raw : RawFrame)
    (gender education employment : list string) :
  raw !! "gender" = Some gender →
  raw !! "education" = Some education →
  raw !! "employment" = Some employment →
  ∃ coded g e m,
    encode_cell raw = Ok coded ∧
    coded !! "gender" = Some g ∧
    codes_within 0 1 g ∧ codes_distinguish gender g ∧
    coded !! "education" = Some e ∧
    codes_within 0 5 e ∧ codes_distinguish education e ∧
    coded !! "employment" = Some m ∧
    codes_within 0 2 m ∧ codes_distinguish employment m.
Proof.
  intros Hg He Hm. unfold encode_cell.
  rewrite (getitem_Some _ _ _ Hg), (getitem_Some _ _ _ He),
    (getitem_Some _ _ _ Hm). simpl.
  eexists _, _, _, _. split; [done|].
  do 2 (split; [by simplify_map_eq|];
        split; [apply Series_map_within, (bool_decide_unpack _); by vm_compute|];
        split; [apply Series_map_distinguish, (bool_decide_unpack _);
                by vm_compute|]).
  split; [by simplify_map_eq|].
  split; [apply Series_map_within, (bool_decide_unpack _); by vm_compute|].
  apply Series_map_distinguish, (bool_decide_unpack _); by vm_compute.
Qed.

Lemma encode_cell_codes_witness :
  ∃ coded e,
    encode_cell raw_phd = Ok coded ∧ coded !! "education" = Some e ∧
    codes_within 0 5 e ∧ codes_distinguish ["bachelor"; "phd"] e.
Proof.
  destruct (encode_cell_codes raw_phd _ _ _ eq_refl eq_refl eq_refl)
    as (coded & g & e & m & Hrun & _ & _ & _ & He & Hw & Hd & _).
  exists coded, e. exact (conj Hrun (conj He (conj Hw Hd))).
Defined.

(** ** More on the group reports *)

(** X13: the frame [averages_calculate] prints does not depend on the order
    of the rows of the table. *)
Theorem averages_calculate_row_order (df : CodedFrame) (p : list nat)
    (n : nat) (group_col label_col : string) :
  p ≡ₚ seq 0 n →
  map_Forall (λ _ s, length s = n) df →
  averages_calculate (reorder p df) group_col label_col
    = averages_calculate df group_col label_col.
Proof. intros Hp Hn. by apply (grouped_proportions_reorder df p n). Qed.

Lemma averages_calculate_row_order_witness :
  averages_calculate (reorder [2; 3; 0; 1]%nat tie_2_first) "region" "label"
    = averages_calculate tie_2_first "region" "label".
Proof.
  apply (averages_calculate_row_order tie_2_first [2; 3; 0; 1]%nat 4).
  - apply (bool_decide_unpack _). by vm_compute.
  - apply (bool_decide_unpack _). by vm_compute.
Defined.

Lemma pair_counts_sum_two (rows : list (Z * Z)) (k lo hi : Z) :
  lo ≠ hi →
  Forall (λ r, r.2 = lo ∨ r.2 = hi) rows →
  (pair_count rows k lo + pair_count rows k hi)%nat = group_size rows k.
Proof.
  intros Hne. unfold pair_count, group_size.
  induction 1 as [|[k' v] rows Hv _ IH]; [done|].
  rewrite !filter_cons. simpl in *.
  destruct (decide (k' = k)) as [->|Hk].
  - destruct Hv as [-> | ->].
    + rewrite decide_True, decide_False by congruence. simpl. lia.
    + rewrite decide_False, decide_True by congruence. simpl. lia.
  - rewrite !decide_False by congruence. done.
Qed.

Lemma ratio_nonneg (c n : nat) : 0 <= ratio c n.
Proof.
  unfold ratio, Qdiv. apply Qmult_le_0_compat.
  - change 0 with (inject_Z 0). rewrite <- Zle_Qle. lia.
  - apply Qinv_le_0_compat. change 0 with (inject_Z 0).
    rewrite <- Zle_Qle. lia.
Qed.

Lemma sorted_values_two (l : list Z) (lo hi : Z) :
  sorted_values l = [lo; hi] → (lo < hi)%Z.
Proof.
  intros Hl.
  assert (Hs : Sorted Z.le (sorted_values l))
    by (apply Sorted_merge_sort; apply _).
  assert (Hd : NoDup (sorted_values l)).
  { unfold sorted_values. rewrite merge_sort_Permutation.
    apply NoDup_remove_dups. }
  rewrite Hl in Hs, Hd.
  apply Sorted_inv in Hs as [_ Hle]. apply HdRel_inv in Hle.
  apply NoDup_cons in Hd as [Hne _].
  assert (lo ≠ hi) by (intros ->; apply Hne; left). lia.
Qed.

(** X14: the renaming goes by the order of the label values. Whenever the
    labels of the grouped rows take exactly two values lo < hi (0 and 1 or
    any other pair), [averages_calculate] succeeds, 'Below Average' is the
    share of lo and 'Above Average' the share of hi within each group, each
    share lies between 0 and 1, and the two sum to 1. *)
Theorem averages_calculate_two_classes (df : CodedFrame)
    (group_col label_col : string) (keys labels : list (option Z))
    (lo hi : Z) :
  df !! group_col = Some keys →
  df !! label_col = Some labels →
  sorted_values ((kept_rows keys labels).*2) = [lo; hi] →
  (lo < hi)%Z ∧
  ∃ grouped,
    averages_calculate df group_col label_col = Ok grouped ∧
    ∀ k below above, (k, (below, above)) ∈ grouped →
      let rows := kept_rows keys labels in
      below == ratio (pair_count rows k lo) (group_size rows k) ∧
      above == ratio (pair_count rows k hi) (group_size rows k) ∧
      0 <= below ∧ below <= 1 ∧ 0 <= above ∧ above <= 1 ∧
      below + above == 1.
Proof.
  intros Hk Hl Hc. set (rows := kept_rows keys labels) in *.
  pose proof (sorted_values_two _ _ _ Hc) as Hlt. split; [done|].
  exists (two_columns rows lo hi). split.
  { unfold averages_calculate.
    rewrite (grouped_proportions_run _ _ _ _ _ Hk Hl).
    by apply set_two_columns_Ok. }
  intros k below above Hin. cbv zeta.
  apply list_elem_of_fmap in Hin as (k' & [= -> -> ->] & Hk').
  rewrite sorted_values_elem in Hk'.
  assert (Hbin : Forall (λ r, r.2 = lo ∨ r.2 = hi) rows).
  { apply Forall_forall. intros r Hr.
    assert (Hr2 : r.2 ∈ sorted_values (rows.*2)).
    { apply sorted_values_elem, list_elem_of_fmap. eauto. }
    rewrite Hc in Hr2.
    apply elem_of_cons in Hr2 as [?|Hr2]; [by left|].
    apply elem_of_cons in Hr2 as [?|Hr2]; [by right|].
    by apply elem_of_nil in Hr2. }
  assert (Hne : lo ≠ hi) by lia.
  pose proof (pair_counts_sum_two rows k' lo hi Hne Hbin) as Hsum.
  pose proof (group_size_pos rows k' Hk') as Hpos.
  pose proof (ratio_sum _ _ _ Hsum Hpos) as Hone.
  pose proof (proportion_cell_ratio rows k' lo) as H0.
  pose proof (proportion_cell_ratio rows k' hi) as H1.
  pose proof (ratio_nonneg (pair_count rows k' lo) (group_size rows k')).
  pose proof (ratio_nonneg (pair_count rows k' hi) (group_size rows k')).
  repeat split; try done; lra.
Qed.

Lemma averages_calculate_two_classes_witness :
  ∃ grouped, averages_calculate three_groups "region" "label" = Ok grouped.
Proof.
  destruct (averages_calculate_two_classes three_groups "region" "label"
              _ _ 0 1 eq_refl eq_refl) as (_ & grouped & Hrun & _).
  { by vm_compute. }
  by exists grouped.
Defined.

Lemma bar_graph_loop_fails sort_values (df : CodedFrame) label_col top_n
    before group after w p e :
  Forall (λ c, ∃ grouped, grouped_proportions df c label_col = Ok grouped)
    before →
  grouped_proportions df group label_col = Err e →
  bar_graph_loop sort_values df label_col top_n (before ++ group :: after) w p
    = Err e.
Proof.
  intros Hbefore Hg. revert w p.
  induction Hbefore as [|c before [grouped Hc] _ IH]; intros w p; simpl.
  - by rewrite Hg.
  - rewrite Hc. simpl. apply IH.
Qed.

(** X15: missing columns and the first failure. [averages_calculate] raises
    KeyError for the group column when it is missing (whether or not the
    label column exists) and KeyError for the label column when only that
    one is missing. [bar_graph] stops at the first group column whose
    grouping fails and raises that column's exception; the columns after it
    are not looked at and nothing is returned for the columns before it. *)
Theorem group_report_errors (df : CodedFrame) (group label_col : string) :
  (df !! group = None →
   averages_calculate df group label_col = Err (KeyError group)) ∧
  (is_Some (df !! group) → df !! label_col = None →
   averages_calculate df group label_col = Err (KeyError label_col)) ∧
  (∀ sort_values before after top_n e,
     Forall (λ c, ∃ grouped, averages_calculate df c label_col = Ok grouped)
       before →
     averages_calculate df group label_col = Err e →
     bar_graph sort_values df (before ++ group :: after) label_col top_n
       = Err e).
Proof.
  unfold averages_calculate. split; [|split].
  - intros Hg. unfold grouped_proportions. by rewrite (getitem_None _ _ Hg).
  - intros [keys Hg] Hl. unfold grouped_proportions.
    by rewrite (getitem_Some _ _ _ Hg), (getitem_None _ _ Hl).
  - intros sort_values before after top_n e Hbefore He.
    by apply bar_graph_loop_fails.
Qed.

Lemma group_report_errors_witness :
  averages_calculate single_class "regio" "label" = Err (KeyError "regio") ∧
  bar_graph stable_sort_desc three_groups ["region"; "age"; "region"]
    "label" 2 = Err (KeyError "age").
Proof.
  split.
  - by apply (proj1 (group_report_errors single_class "regio" "label")).
  - apply (proj2 (proj2 (group_report_errors three_groups "age" "label"))
             stable_sort_desc ["region"] ["region"] 2%Z).
    + repeat constructor. eexists. reflexivity.
    + reflexivity.
Defined.

Lemma bar_lists_length (cols : list string) (tops : list (list (Z * Q))) :
  length cols = length tops →
  length (concat (zip_with tagged cols tops)) = sum_list (length <$> tops) ∧
  length (concat ((λ top : list (Z * Q), top.*2) <$> tops))
    = sum_list (length <$> tops).
Proof.
  revert cols. induction tops as [|top tops IH]; intros [|c cols] Hlen;
    try done.
  destruct (IH cols) as [IH1 IH2]; [simpl in Hlen; lia|].
  rewrite !fmap_cons. cbn [zip_with concat sum_list sum_list_with foldr].
  rewrite !length_app. unfold tagged at 1. rewrite !length_fmap.
  unfold id. by rewrite IH1, IH2.
Qed.

Lemma Series_head_length {A} (n : Z) (s : list A) :
  length (Series_head n s) = head_count n (length s).
Proof.
  unfold Series_head, head_count. case_decide; rewrite length_take; lia.
Qed.

Lemma grouped_below_length (grouped : Grouped) :
  length (below_average grouped) = length grouped.
Proof. unfold below_average. by rewrite length_fmap. Qed.

(** X16: the two lists [bar_graph] hands to the plot have the same length:
    one bar label per share. Each group column contributes [head(top_n)] of
    its groups: min(top_n, number of groups) bars when top_n >= 0, so a
    top_n beyond the number of groups lists every group, and all but the
    last -top_n groups of the ranking when top_n is negative. *)
Theorem bar_graph_shape sort_values (df : CodedFrame)
    (group_cols : list string) (label_col : string) (top_n : Z)
    (groupeds : list Grouped) :
  sorts_descending sort_values →
  Forall2 (λ group grouped,
             averages_calculate df group label_col = Ok grouped)
    group_cols groupeds →
  ∃ worst_groups proportions,
    bar_graph sort_values df group_cols label_col top_n
      = Ok (worst_groups, proportions) ∧
    length worst_groups = length proportions ∧
    length proportions
      = sum_list ((λ grouped : Grouped, head_count top_n (length grouped))
                    <$> groupeds) ∧
    ((0 ≤ top_n)%Z →
     length proportions
       = sum_list ((λ grouped : Grouped,
                      Nat.min (Z.to_nat top_n) (length grouped))
                     <$> groupeds)).
Proof.
  intros Hsort Hall. eexists _, _. split.
  { unfold bar_graph. by rewrite (bar_graph_loop_run _ _ _ _ _ groupeds [] []). }
  simpl.
  set (tops := (λ grouped,
    Series_head top_n (sort_values (below_average grouped))) <$> groupeds).
  assert (Hcols : length group_cols = length tops).
  { unfold tops. rewrite length_fmap. by eapply Forall2_length. }
  destruct (bar_lists_length group_cols tops Hcols) as [Hw Hp].
  assert (Hsum : sum_list (length <$> tops)
    = sum_list ((λ grouped : Grouped, head_count top_n (length grouped))
                  <$> groupeds)).
  { unfold tops. rewrite <- list_fmap_compose. f_equal.
    apply list_fmap_ext. intros _ grouped _. simpl.
    rewrite Series_head_length.
    destruct (Hsort (below_average grouped)) as [Hperm _].
    by rewrite Hperm, grouped_below_length. }
  split; [congruence|]. split; [congruence|].
  intros Hn. rewrite Hp, Hsum. f_equal. apply list_fmap_ext.
  intros _ grouped _. unfold head_count. by rewrite decide_True.
Qed.

Lemma bar_graph_shape_witness :
  ∃ worst_groups proportions,
    bar_graph stable_sort_desc three_groups ["region"; "region"] "label" 5
      = Ok (worst_groups, proportions) ∧
    length worst_groups = length proportions ∧
    length proportions = 6%nat.
Proof.
  destruct (bar_graph_shape stable_sort_desc three_groups
              ["region"; "region"] "label" 5
              [[(1%Z, (0.8, 0.2)); (2%Z, (0.3, 0.7)); (3%Z, (0.9, 0.1))];
               [(1%Z, (0.8, 0.2)); (2%Z, (0.3, 0.7)); (3%Z, (0.9, 0.1))]]
              stable_sort_desc_sorts)
    as (w & p & Hrun & Hw & _ & Hp).
  { repeat constructor. }
  exists w, p. split; [done|]. split; [done|]. by apply Hp.
Defined.

(** X17: the groups [bar_graph] lists for a group column are the worst ones.
    For one group column and top_n >= 0, the rows of the grouped frame split
    into the listed groups (each tagged with the column and paired with its
    Below-Average share) and the groups left out, and no group left out has
    a larger Below-Average share than a listed one. *)
Theorem bar_graph_lists_the_worst sort_values (df : CodedFrame)
    (group label_col : string) (top_n : Z) (grouped : Grouped) :
  sorts_descending sort_values →
  (0 ≤ top_n)%Z →
  averages_calculate df group label_col = Ok grouped →
  ∃ listed rest : list (Z * Q),
    bar_graph sort_values df [group] label_col top_n
      = Ok (tagged group listed, listed.*2) ∧
    listed ++ rest ≡ₚ below_average grouped ∧
    ∀ x r, x ∈ listed → r ∈ rest → r.2 <= x.2.
Proof.
  intros Hsort Hn Hg. unfold averages_calculate in Hg.
  destruct (Hsort (below_average grouped)) as [Hperm Hdesc].
  set (ranked := sort_values (below_average grouped)) in *.
  exists (take (Z.to_nat top_n) ranked), (drop (Z.to_nat top_n) ranked).
  split; [|split].
  - unfold bar_graph. simpl. rewrite Hg. simpl. fold ranked.
    unfold Series_head. by rewrite decide_True.
  - by rewrite take_drop.
  - apply Sorted_StronglySorted in Hdesc; [|apply _].
    rewrite <- (take_drop (Z.to_nat top_n) ranked) in Hdesc.
    apply StronglySorted_app in Hdesc as (Hcross & _ & _).
    intros x r Hx Hr. by apply (Hcross x r).
Qed.

Lemma bar_graph_lists_the_worst_witness :
  ∃ listed rest : list (Z * Q),
    bar_graph stable_sort_desc three_groups ["region"] "label" 2
      = Ok (tagged "region" listed, listed.*2) ∧
    ∀ x r, x ∈ listed → r ∈ rest → r.2 <= x.2.
Proof.
  destruct (bar_graph_lists_the_worst stable_sort_desc three_groups
              "region" "label" 2
              [(1%Z, (0.8, 0.2)); (2%Z, (0.3, 0.7)); (3%Z, (0.9, 0.1))]
              stable_sort_desc_sorts)
    as (listed & rest & Hrun & _ & Hworst).
  - lia.
  - reflexivity.
  - exists listed, rest. exact (conj Hrun Hworst).
Defined.

(** ** From the raw table to the labels *)

(** X18: the data path of the notebook up to the labels. On a raw table
    that has the text columns education and gender and the six numeric
    score columns, the cleaning cell, the gain cell and the two labelling
    cells run in this order without an exception, and every column of the
    final numeric frame has one row per respondent kept by the cleaning. *)
Theorem raw_table_to_labels (t : RawTable) (edu gen : list (option string))
    (cpost cpre ipost ipre mpost mpre : list (option Q)) :
  text t !! "education" = Some edu →
  text t !! "gender" = Some gen →
  numbers t !! "Post_Training_Basic_Computer_Knowledge_Score" = Some cpost →
  numbers t !! "Basic_Computer_Knowledge_Score" = Some cpre →
  numbers t !! "Post_Training_Internet_Usage_Score" = Some ipost →
  numbers t !! "Internet_Usage_Score" = Some ipre →
  numbers t !! "Post_Training_Mobile_Literacy_Score" = Some mpost →
  numbers t !! "Mobile_Literacy_Score" = Some mpre →
  ∃ c final,
    clean_cell t = Ok c ∧
    ((gain_cell (num c) ≫= median_label_cell) ≫= quantile_label_cell)
      = Ok final ∧
    frame_rows final (length (kept_by_cleaning t edu)) ∧
    (∀ col, col ∈ gain_columns ++ label_columns → is_Some (final !! col)).
Proof.
  intros He Hg H1 H2 H3 H4 H5 H6. eexists _.
  rewrite (clean_cell_run t edu gen He Hg). cbn [num].
  set (rows := kept_by_cleaning t edu).
  assert (Hn : frame_rows (take_rows rows <$> numbers t) (length rows)).
  { intros col s. rewrite lookup_fmap.
    destruct (numbers t !! col) as [s0|] eqn:Hs; [|done].
    intros [= <-]. symmetry.
    by eapply Forall2_length, (kept_rows_numbers t edu col). }
  destruct (label_pipeline_run (take_rows rows <$> numbers t) (length rows)
              (take_rows rows cpost) (take_rows rows cpre)
              (take_rows rows ipost) (take_rows rows ipre)
              (take_rows rows mpost) (take_rows rows mpre))
    as (final & Hrun & Hrows & Hcols & _);
    [done|by rewrite lookup_fmap, ?H1, ?H2, ?H3, ?H4, ?H5, ?H6..|].
  exists final. done.
Qed.

Lemma raw_table_to_labels_witness :
  ∃ c final,
    clean_cell raw_scores = Ok c ∧
    ((gain_cell (num c) ≫= median_label_cell) ≫= quantile_label_cell)
      = Ok final ∧
    frame_rows final 3.
Proof.
  destruct (raw_table_to_labels raw_scores _ _ _ _ _ _ _ _
              eq_refl eq_refl eq_refl eq_refl eq_refl eq_refl eq_refl eq_refl)
    as (c & final & Hc & Hrun & Hrows & _).
  exists c, final. split; [done|]. split; [done|].
  assert (Hlen : length (kept_by_cleaning raw_scores
                   [Some "bachelor"; Some "master"; Some "unknown";
                    Some "none"; Some "none"]) = 3%nat) by (by vm_compute).
  by rewrite <- Hlen.
Defined.

Lemma kept_rows_both_present (keys labels : list (option Z)) :
  kept_rows (boolean_index (both_present keys labels) keys)
            (boolean_index (both_present keys labels) labels)
  = kept_rows keys labels.
Proof.
  unfold kept_rows, both_present. revert labels.
  induction keys as [|k keys IH]; intros [|v labels]; try done.
  specialize (IH labels).
  destruct k as [k|], v as [v|]; simpl; [f_equal|..]; exact IH.
Qed.

(** X19: respondents with a missing group value or a missing label are left
    out of the report without notice: [averages_calculate] gives the same
    result on the table from which these rows have been removed. *)
Theorem averages_calculate_ignores_missing (df : CodedFrame)
    (group_col label_col : string) (keys labels : list (option Z)) :
  df !! group_col = Some keys →
  df !! label_col = Some labels →
  averages_calculate (boolean_index (both_present keys labels) <$> df)
    group_col label_col
  = averages_calculate df group_col label_col.
Proof.
  intros Hk Hl. unfold averages_calculate, grouped_proportions.
  rewrite (getitem_fmap _ _ _ _ Hk), (getitem_fmap _ _ _ _ Hl).
  rewrite (getitem_Some _ _ _ Hk), (getitem_Some _ _ _ Hl). simpl.
  by rewrite kept_rows_both_present.
Qed.

Lemma averages_calculate_ignores_missing_witness :
  averages_calculate
    (boolean_index [true; true; false] <$> single_class) "region" "label"
  = averages_calculate single_class "region" "label".
Proof.
  exact (averages_calculate_ignores_missing single_class "region" "label"
           _ _ eq_refl eq_refl).
Defined.
